(** * simple-file-browser: the range-aware streaming path of [main.py]

    A shallow embedding of [get_range_header], [async_iterate_file_chunks],
    [view_file] and [get_file_info], together with the Python primitives
    they rest on ([str.replace], [str.split], [int], [str], truthiness),
    and the properties of the streaming engine stated over them.

    Conventions.
    - Python [int] is [Z]; [bytes] is [list byte]; [str] is [string], a
      sequence of 8-bit characters read as the code points U+0000..U+00FF
      (the range an HTTP header value decodes to).
    - A Python computation that may raise is a value of [result]; a
      [try]/[except] is a [match] on it.
    - The interpreter and the operating system are a record [Env]: the
      digit limit of [int], path resolution, the live file tree, the mime
      database and [humanize.naturalsize]. The file tree does not change
      while a request is served.
    - A generator object is the record of its call; [iterate] runs its
      body to the end, and [task_step] runs it from one [await] to the
      next when several are iterated at once. *)

From Stdlib Require Import ZArith Lia Ascii String Strings.Byte List Bool DecimalString.
From Stdlib Require Import Sorted.
From Equations Require Import Equations.
From Equations.Prop Require Import Logic.
From stdpp Require Import base option list strings gmap.

Local Open Scope string_scope.
Local Open Scope Z_scope.

(** ** Exceptions and the [result] monad *)

(** The exception classes that occur on the modelled paths. All of them
    derive from [Exception]; [HTTPException] is the FastAPI one. The
    message texts are never inspected by the code. *)
Inductive exn : Type :=
| ValueError (msg : string)
| OSError (msg : string)
| FileNotFoundError (msg : string)
| IsADirectoryError (msg : string)
| HTTPException (status_code : Z) (detail : string).

(** [str(e)] of an exception. *)
Definition exn_str (e : exn) : string :=
  match e with
  | ValueError m | OSError m | FileNotFoundError m | IsADirectoryError m => m
  | HTTPException _ d => d
  end.

Inductive result (A : Type) : Type :=
| Ok (a : A)
| Raise (e : exn).
Arguments Ok {A} a.
Arguments Raise {A} e.

#[global] Instance result_ret : MRet result := fun A a => Ok a.
#[global] Instance result_bind : MBind result := fun A B f m =>
  match m with
  | Ok a => f a
  | Raise e => Raise e
  end.

(** ** Python [str] primitives *)

Definition ord (c : ascii) : Z := Z.of_N (N_of_ascii c).

(** Truthiness of a [str] and of a [str | None]. *)
Definition truthy (s : string) : bool :=
  match s with
  | EmptyString => false
  | String _ _ => true
  end.

Definition truthy_opt (o : option string) : bool :=
  match o with
  | None => false
  | Some s => truthy s
  end.

(** [x or d] on a [str | None]. *)
Definition py_or (o : option string) (d : string) : string :=
  if truthy_opt o then default d o else d.

(** [s.replace(old, new)]: the non-overlapping occurrences of [old] are
    replaced from left to right. [skip] counts the characters of a matched
    occurrence that are still to be dropped. *)
Fixpoint replace_go (old new : string) (skip : nat) (s : string) : string :=
  match s with
  | EmptyString => EmptyString
  | String c r =>
      match skip with
      | S k => replace_go old new k r
      | O =>
          if String.prefix old s
          then new +:+ replace_go old new (Nat.pred (String.length old)) r
          else String c (replace_go old new 0 r)
      end
  end.

(** With an empty [old], Python puts [new] before every character and at
    the end. *)
Fixpoint replace_empty (new s : string) : string :=
  match s with
  | EmptyString => new
  | String c r => new +:+ String c (replace_empty new r)
  end.

Definition replace (s old new : string) : string :=
  match old with
  | EmptyString => replace_empty new s
  | String _ _ => replace_go old new 0 s
  end.

(** [s.split(sep)] for a given separator: the list of the fields between
    the occurrences of [sep], never empty. *)
Fixpoint split_go (sep : string) (skip : nat) (s : string) : list string :=
  match s with
  | EmptyString => [EmptyString]
  | String c r =>
      match skip with
      | S k => split_go sep k r
      | O =>
          if String.prefix sep s
          then EmptyString :: split_go sep (Nat.pred (String.length sep)) r
          else
            match split_go sep 0 r with
            | f :: fs => String c f :: fs
            | [] => [String c EmptyString]
            end
      end
  end.

Definition split (s sep : string) : result (list string) :=
  match sep with
  | EmptyString => Raise (ValueError "empty separator")
  | String _ _ => Ok (split_go sep 0 s)
  end.

(** [a, b = xs]: unpacking into exactly two names. *)
Definition unpack2 (xs : list string) : result (string * string) :=
  match xs with
  | [a; b] => Ok (a, b)
  | [] | [_] => Raise (ValueError "not enough values to unpack")
  | _ => Raise (ValueError "too many values to unpack")
  end.

(** ** [int(s)] and [str(n)]

    [int] on a [str] follows CPython: the text is first brought to ASCII
    ([_PyUnicode_TransformDecimalAndSpaceToASCII]), then read by
    [PyLong_FromString] in base 10: optional white space, an optional
    sign, digits with single underscores between them, optional white
    space, and nothing else. *)

Definition Py_ISSPACE (c : ascii) : bool :=
  let n := ord c in ((9 <=? n) && (n <=? 13)) || (n =? 32).

(** The Unicode white space among U+0000..U+00FF. *)
Definition Py_UNICODE_ISSPACE (c : ascii) : bool :=
  let n := ord c in
  ((9 <=? n) && (n <=? 13)) || ((28 <=? n) && (n <=? 32))
  || (n =? 133) || (n =? 160).

Definition is_digit (c : ascii) : bool :=
  let n := ord c in (48 <=? n) && (n <=? 57).

(** The decimal digits among U+0000..U+00FF are the ASCII ones. *)
Definition Py_UNICODE_TODECIMAL (c : ascii) : option Z :=
  if is_digit c then Some (ord c - 48) else None.

Definition chr (n : Z) : ascii := ascii_of_N (Z.to_N n).

Fixpoint is_ascii (s : string) : bool :=
  match s with
  | EmptyString => true
  | String c r => (ord c <? 128) && is_ascii r
  end.

Fixpoint transform_go (s : string) : string :=
  match s with
  | EmptyString => EmptyString
  | String ch r =>
      if ord ch <? 127 then String ch (transform_go r)
      else if Py_UNICODE_ISSPACE ch then String " " (transform_go r)
      else
        match Py_UNICODE_TODECIMAL ch with
        | Some d => String (chr (48 + d)) (transform_go r)
        | None => "?"
        end
  end.

Definition transform_decimal_and_space_to_ascii (s : string) : string :=
  if is_ascii s then s else transform_go s.

Fixpoint lstrip_space (s : string) : string :=
  match s with
  | EmptyString => EmptyString
  | String c r => if Py_ISSPACE c then lstrip_space r else s
  end.

(** The digit scan of [long_from_string_base]: the value read so far, the
    number of digits, and the rest of the text; [None] on a doubled or
    trailing underscore. *)
Fixpoint scan_digits (prev_us : bool) (acc : Z) (ndigits : Z) (s : string)
  : option (Z * Z * string) :=
  match s with
  | EmptyString => if prev_us then None else Some (acc, ndigits, EmptyString)
  | String c r =>
      if is_digit c then scan_digits false (10 * acc + (ord c - 48)) (ndigits + 1) r
      else if Ascii.eqb c "_" then
        if prev_us then None else scan_digits true acc ndigits r
      else if prev_us then None else Some (acc, ndigits, s)
  end.

(** [_PY_LONG_MAX_STR_DIGITS_THRESHOLD]. *)
Definition max_str_digits_threshold : Z := 640.

(** The conversion limit of the interpreter ([sys.get_int_max_str_digits()],
    4300 unless configured, 0 when switched off or absent). *)
Definition exceeds_limit (max_str_digits ndigits : Z) : bool :=
  (max_str_digits_threshold <? ndigits) && (0 <? max_str_digits)
  && (max_str_digits <? ndigits).

(** The optional sign in front of the digits. *)
Definition read_sign (s : string) : Z * string :=
  match s with
  | EmptyString => (1, s)
  | String c r =>
      if Ascii.eqb c "+" then (1, r)
      else if Ascii.eqb c "-" then (-1, r)
      else (1, s)
  end.

Definition starts_with (c : ascii) (s : string) : bool :=
  match s with
  | EmptyString => false
  | String d _ => Ascii.eqb d c
  end.

Definition PyLong_FromString (max_str_digits : Z) (s : string) : option Z :=
  let '(sign, s) := read_sign (lstrip_space s) in
  if starts_with "_" s then None
  else
    match scan_digits false 0 0 s with
    | None => None
    | Some (v, n, rest) =>
        if n =? 0 then None
        else if exceeds_limit max_str_digits n then None
        else
          match lstrip_space rest with
          | EmptyString => Some (sign * v)
          | String _ _ => None
          end
    end.

Definition py_int (max_str_digits : Z) (s : string) : result Z :=
  match PyLong_FromString max_str_digits (transform_decimal_and_space_to_ascii s) with
  | Some v => Ok v
  | None => Raise (ValueError "invalid literal for int() with base 10")
  end.

(** [str(n)]: the decimal numeral of [n]. The numbers printed by
    [view_file] lie between 0 and the size of a file, far below the
    length at which the conversion limit applies. *)
Definition py_str (n : Z) : string := NilZero.string_of_int (Z.to_int n).

(** ** [get_range_header] *)

(** The body of the [try] block. *)
Definition get_range_header_try (max_str_digits : Z)
    (range_header : string) (file_size : Z) : result (Z * Z * bool) :=
  let range_str := replace range_header "bytes=" "" in
  parts ← split range_str "-";
  '(start, end_) ← unpack2 parts;
  start ← py_int max_str_digits start;
  end_ ← (if truthy end_ then py_int max_str_digits end_ else Ok (file_size - 1));
  if (start >=? file_size) || (end_ >=? file_size) || (start >? end_)
  then Raise (HTTPException 416 "Invalid range")
  else Ok (start, end_, true).

(** [except Exception] catches every exception class of the model,
    [HTTPException] included. *)
Definition get_range_header (max_str_digits : Z)
    (range_header : string) (file_size : Z) : result (Z * Z * bool) :=
  match get_range_header_try max_str_digits range_header file_size with
  | Ok r => Ok r
  | Raise _ => Ok (0, file_size - 1, false)
  end.

(** ** The interpreter and the operating system *)

Definition bytes : Type := list Byte.byte.

(** A node of the file tree: a directory (with the size [stat] reports
    for it) or a regular file with its content. *)
Inductive node : Type :=
| Dir (dir_size : Z)
| File (content : bytes).

Record Env : Type := {
  (** [sys.get_int_max_str_digits()] *)
  int_max_str_digits : Z;
  (** [str((Path("/") / path).resolve())] *)
  resolve : string -> string;
  (** the file tree, by resolved path *)
  files : gmap string node;
  (** [mimetypes.guess_type(p)[0]], the system mime database *)
  guess_type : string -> option string;
  (** [humanize.naturalsize] *)
  naturalsize : Z -> string;
}.

Definition path_exists (env : Env) (p : string) : bool :=
  match files env !! p with
  | Some _ => true
  | None => false
  end.

Definition path_is_dir (env : Env) (p : string) : bool :=
  match files env !! p with
  | Some (Dir _) => true
  | _ => false
  end.

(** [p.stat().st_size] *)
Definition stat_st_size (env : Env) (p : string) : result Z :=
  match files env !! p with
  | Some (File data) => Ok (Z.of_nat (length data))
  | Some (Dir n) => Ok n
  | None => Raise (FileNotFoundError "[Errno 2] No such file or directory")
  end.

(** ** [async_iterate_file_chunks] *)

(** [f.read(size)] at cursor [pos] of a file with content [data]: up to
    [size] bytes, everything that is left for a negative [size]. *)
Definition read_at (data : bytes) (pos : nat) (size : Z) : bytes :=
  let rest := drop pos data in
  if size <? 0 then rest else take (Z.to_nat size) rest.

(** The [while True] loop: read, stop at the first empty chunk, yield
    otherwise. Every yielded chunk moves the cursor forward, so the loop
    ends. *)
Equations read_loop (data : bytes) (pos : nat) (chunk_size : Z) : list bytes
  by wf (length data - pos)%nat lt :=
  read_loop data pos chunk_size with inspect (read_at data pos chunk_size) := {
    | exist _ nil _ => [];
    | exist _ (cons b chunk) H =>
        (b :: chunk) :: read_loop data (pos + length (b :: chunk)) chunk_size
  }.
Next Obligation.
  intros data pos chunk_size b chunk H _. unfold read_at in H.
  assert (Hlen : (length (b :: chunk) <= length (drop pos data))%nat).
  { rewrite <- H. destruct (chunk_size <? 0); [lia |]. rewrite length_take. lia. }
  rewrite length_drop in Hlen. simpl in *. lia.
Qed.

Definition default_chunk_size : Z := 1024 * 1024.

(** The chunks the generator yields when it is iterated to the end, or
    the exception that opening or seeking raises. *)
Definition async_iterate_file_chunks (env : Env)
    (file_path : string) (start : Z) (chunk_size : Z) : result (list bytes) :=
  match files env !! file_path with
  | None => Raise (FileNotFoundError "[Errno 2] No such file or directory")
  | Some (Dir _) => Raise (IsADirectoryError "[Errno 21] Is a directory")
  | Some (File data) =>
      if start <? 0 then Raise (OSError "[Errno 22] Invalid argument")
      else Ok (read_loop data (Z.to_nat start) chunk_size)
  end.

(** A generator object: the call [async_iterate_file_chunks(file_path,
    start, chunk_size)] before its body has run. *)
Record generator : Type := {
  gen_path : string;
  gen_start : Z;
  gen_chunk_size : Z;
}.

Definition iterate (env : Env) (g : generator) : result (list bytes) :=
  async_iterate_file_chunks env (gen_path g) (gen_start g) (gen_chunk_size g).

(** ** [view_file] *)

Record StreamingResponse : Type := {
  body_iterator : generator;
  status_code : Z;
  headers : gmap string string;
}.

(** Line 156: the range a request resolves to. *)
Definition resolved_range (env : Env) (range : option string) (file_size : Z)
  : result (Z * Z * bool) :=
  match range with
  | Some r =>
      if truthy r then get_range_header (int_max_str_digits env) r file_size
      else Ok (0, file_size - 1, false)
  | None => Ok (0, file_size - 1, false)
  end.

(** The body of the [try] block. *)
Definition view_file_try (env : Env) (path : string) (range : option string)
  : result StreamingResponse :=
  let full_path := resolve env path in
  if negb (path_exists env full_path) || path_is_dir env full_path
  then Raise (HTTPException 404 "File not found")
  else
    file_size ← stat_st_size env full_path;
    let mime_type := guess_type env full_path in
    let mime_type := py_or mime_type "application/octet-stream" in
    rng ← resolved_range env range file_size;
    let '(start, end_, is_partial) := (rng : Z * Z * bool) in
    let content_length := end_ - start + 1 in
    let headers : gmap string string :=
      <["Content-Length" := py_str content_length]>
        (<["Accept-Ranges" := "bytes"]>
           (<["Content-Type" := mime_type]> ∅)) in
    let status_code := if is_partial then 206 else 200 in
    let headers :=
      if is_partial
      then <["Content-Range" :=
               "bytes " +:+ py_str start +:+ "-" +:+ py_str end_
               +:+ "/" +:+ py_str file_size]> headers
      else headers in
    Ok {| body_iterator :=
            {| gen_path := full_path; gen_start := start;
               gen_chunk_size := default_chunk_size |};
          status_code := status_code;
          headers := headers |}.

(** [except HTTPException as e: raise e], then [except Exception]. *)
Definition view_file (env : Env) (path : string) (range : option string)
  : result StreamingResponse :=
  match view_file_try env path range with
  | Ok r => Ok r
  | Raise (HTTPException s d) => Raise (HTTPException s d)
  | Raise e => Raise (HTTPException 500 (exn_str e))
  end.

(** The bytes the body producer of a response emits when it is
    iterated to its end. *)
Definition streamed_body (env : Env) (r : StreamingResponse) : result bytes :=
  chunks ← iterate env (body_iterator r);
  Ok (concat chunks).

(** ** [get_file_info] *)

Record FileInfo : Type := {
  name : string;
  path : string;
  is_dir : bool;
  size : string;
  size_bytes : Z;
  mime_type : option string;
}.

Fixpoint has_char (c : ascii) (s : string) : bool :=
  match s with
  | EmptyString => false
  | String d r => Ascii.eqb c d || has_char c r
  end.

(** [Path.name]: the last component of a resolved path. *)
Fixpoint path_name (p : string) : string :=
  match p with
  | EmptyString => EmptyString
  | String c r =>
      if has_char "/" r then path_name r
      else if Ascii.eqb c "/" then r else p
  end.

(** [s.rfind(".")], [None] for -1. *)
Fixpoint rfind_dot (s : string) : option nat :=
  match s with
  | EmptyString => None
  | String c r =>
      match rfind_dot r with
      | Some i => Some (S i)
      | None => if Ascii.eqb c "." then Some O else None
      end
  end.

(** [Path.suffix]: from the last dot of the name, unless the dot is the
    first or the last character. *)
Definition path_suffix (p : string) : string :=
  let name := path_name p in
  match rfind_dot name with
  | Some i =>
      if (0 <? Z.of_nat i) && (Z.of_nat i <? Z.of_nat (String.length name) - 1)
      then substring i (String.length name - i) name
      else EmptyString
  | None => EmptyString
  end.

Definition lower_char (c : ascii) : ascii :=
  let n := ord c in
  if ((65 <=? n) && (n <=? 90))
     || ((192 <=? n) && (n <=? 222) && negb (n =? 215))
  then chr (n + 32) else c.

Fixpoint lower (s : string) : string :=
  match s with
  | EmptyString => EmptyString
  | String c r => String (lower_char c) (lower r)
  end.

Definition mime_map : gmap string string :=
  list_to_map
    [ (".txt", "text/plain"); (".log", "text/plain"); (".conf", "text/plain");
      (".sh", "text/x-shellscript"); (".bashrc", "text/plain");
      (".profile", "text/plain"); (".pdf", "application/pdf");
      (".json", "application/json"); (".xml", "application/xml");
      (".html", "text/html"); (".css", "text/css");
      (".js", "application/javascript"); (".mp4", "video/mp4");
      (".mkv", "video/x-matroska"); (".avi", "video/x-msvideo");
      (".mov", "video/quicktime"); (".webm", "video/webm");
      (".mp3", "audio/mpeg"); (".wav", "audio/wav"); (".ogg", "audio/ogg") ].

Definition get_file_info (env : Env) (file_path : string) : result FileInfo :=
  let is_dir := path_is_dir env file_path in
  size_bytes ← (if negb is_dir then stat_st_size env file_path else Ok 0);
  let mime_type := if negb is_dir then guess_type env file_path else None in
  let mime_type :=
    if negb (truthy_opt mime_type) && negb is_dir then
      let extension := lower (path_suffix file_path) in
      Some (default "application/octet-stream" (mime_map !! extension))
    else mime_type in
  Ok {| name := path_name file_path;
        path := file_path;
        is_dir := is_dir;
        size := naturalsize env size_bytes;
        size_bytes := size_bytes;
        mime_type := mime_type |}.

(** ** Concurrent iteration

    Several generators iterated at once. Each [await] of
    [async_iterate_file_chunks] is a point where the event loop may run
    another task, so a task advances one file operation at a time: open,
    seek, then one read per turn of the loop. The operating system keeps
    one table of open files for the whole process; an entry is the path
    and the cursor of one open file. *)

Record open_file : Type := {
  of_path : string;
  of_pos : nat;
}.

Record os_state : Type := {
  fd_table : gmap nat open_file;
  next_fd : nat;
}.

(** [aiofiles.open(p, 'rb')]: a new entry with the cursor at 0. *)
Definition os_open (env : Env) (os : os_state) (p : string)
  : result nat * os_state :=
  match files env !! p with
  | Some (File _) =>
      (Ok (next_fd os),
       {| fd_table := <[next_fd os := {| of_path := p; of_pos := 0 |}]> (fd_table os);
          next_fd := S (next_fd os) |})
  | Some (Dir _) => (Raise (IsADirectoryError "[Errno 21] Is a directory"), os)
  | None => (Raise (FileNotFoundError "[Errno 2] No such file or directory"), os)
  end.

(** [f.seek(offset)] *)
Definition os_seek (os : os_state) (fd : nat) (offset : Z)
  : result unit * os_state :=
  match fd_table os !! fd with
  | None => (Raise (ValueError "I/O operation on closed file"), os)
  | Some f =>
      if offset <? 0 then (Raise (OSError "[Errno 22] Invalid argument"), os)
      else
        (Ok tt,
         {| fd_table :=
              <[fd := {| of_path := of_path f; of_pos := Z.to_nat offset |}]> (fd_table os);
            next_fd := next_fd os |})
  end.

(** [f.read(size)]: the bytes at the cursor of this entry, and the
    cursor of this entry moved behind them. *)
Definition os_read (env : Env) (os : os_state) (fd : nat) (size : Z)
  : result bytes * os_state :=
  match fd_table os !! fd with
  | None => (Raise (ValueError "I/O operation on closed file"), os)
  | Some f =>
      match files env !! of_path f with
      | Some (File data) =>
          let chunk := read_at data (of_pos f) size in
          (Ok chunk,
           {| fd_table :=
                <[fd := {| of_path := of_path f;
                           of_pos := (of_pos f + length chunk)%nat |}]> (fd_table os);
              next_fd := next_fd os |})
      | _ => (Raise (OSError "[Errno 5] Input/output error"), os)
      end
  end.

(** Leaving the [async with] block. *)
Definition os_close (os : os_state) (fd : nat) : os_state :=
  {| fd_table := delete fd (fd_table os); next_fd := next_fd os |}.

(** Where a generator stands: before [open], before [seek], at the top
    of the loop, or done. *)
Inductive stage : Type :=
| AtOpen
| AtSeek (fd : nat)
| AtRead (fd : nat)
| Finished
| Failed (e : exn).

Record task : Type := {
  t_gen : generator;
  t_stage : stage;
  t_out : list bytes;
}.

Definition at_stage (t : task) (s : stage) : task :=
  {| t_gen := t_gen t; t_stage := s; t_out := t_out t |}.

(** One task runs up to its next [await]. *)
Definition task_step (env : Env) (os : os_state) (t : task) : os_state * task :=
  match t_stage t with
  | AtOpen =>
      match os_open env os (gen_path (t_gen t)) with
      | (Ok fd, os') => (os', at_stage t (AtSeek fd))
      | (Raise e, os') => (os', at_stage t (Failed e))
      end
  | AtSeek fd =>
      match os_seek os fd (gen_start (t_gen t)) with
      | (Ok _, os') => (os', at_stage t (AtRead fd))
      | (Raise e, os') => (os_close os' fd, at_stage t (Failed e))
      end
  | AtRead fd =>
      match os_read env os fd (gen_chunk_size (t_gen t)) with
      | (Ok [], os') => (os_close os' fd, at_stage t Finished)
      | (Ok chunk, os') =>
          (os', {| t_gen := t_gen t; t_stage := AtRead fd;
                   t_out := (t_out t ++ [chunk])%list |})
      | (Raise e, os') => (os_close os' fd, at_stage t (Failed e))
      end
  | Finished | Failed _ => (os, t)
  end.

(** The event loop runs task [i]. *)
Definition pool_step (env : Env) (st : os_state * list task) (i : nat)
  : os_state * list task :=
  match st.2 !! i with
  | Some t => let '(os', t') := task_step env st.1 t in (os', <[i := t']> st.2)
  | None => st
  end.

(** A schedule is the order in which the event loop picks tasks. *)
Definition run_schedule (env : Env) (sched : list nat) (st : os_state * list task)
  : os_state * list task :=
  foldl (pool_step env) st sched.

(** One task per request, none of them started. *)
Definition spawn (gens : list generator) : os_state * list task :=
  ({| fd_table := ∅; next_fd := 0 |},
   map (fun g => {| t_gen := g; t_stage := AtOpen; t_out := [] |}) gens).

(** The number of turns after which a generator is done at the latest. *)
Definition turns (env : Env) (g : generator) : nat :=
  match files env !! gen_path g with
  | Some (File data) => (length data + 3)%nat
  | _ => 1%nat
  end.

Fixpoint count_turns (i : nat) (sched : list nat) : nat :=
  match sched with
  | [] => O
  | j :: r => ((if Nat.eqb i j then 1 else 0) + count_turns i r)%nat
  end.

(** The open file a task holds, if any. *)
Definition stage_fd (s : stage) : option nat :=
  match s with
  | AtSeek fd | AtRead fd => Some fd
  | AtOpen | Finished | Failed _ => None
  end.

(** What holds of a task at every point of every schedule: its own
    entry of the table has its path and its cursor, and what it has
    yielded plus what the loop still yields from the cursor is what the
    generator yields alone. *)
Definition task_inv (env : Env) (os : os_state) (t : task) : Prop :=
  let g := t_gen t in
  match t_stage t with
  | AtOpen => t_out t = []
  | AtSeek fd =>
      t_out t = []
      /\ (exists data, files env !! gen_path g = Some (File data))
      /\ fd_table os !! fd = Some {| of_path := gen_path g; of_pos := 0 |}
  | AtRead fd =>
      exists data pos,
        files env !! gen_path g = Some (File data)
        /\ fd_table os !! fd = Some {| of_path := gen_path g; of_pos := pos |}
        /\ 0 <= gen_start g
        /\ read_loop data (Z.to_nat (gen_start g)) (gen_chunk_size g)
           = (t_out t ++ read_loop data pos (gen_chunk_size g))%list
  | Finished => iterate env g = Ok (t_out t)
  | Failed e => iterate env g = Raise e
  end.

Definition pool_inv (env : Env) (st : os_state * list task) : Prop :=
  (forall i t, st.2 !! i = Some t -> task_inv env st.1 t)
  /\ (forall i t fd,
        st.2 !! i = Some t -> stage_fd (t_stage t) = Some fd ->
        (fd < next_fd st.1)%nat)
  /\ (forall i j ti tj fd,
        st.2 !! i = Some ti -> st.2 !! j = Some tj ->
        stage_fd (t_stage ti) = Some fd -> stage_fd (t_stage tj) = Some fd ->
        i = j).

(** A bound on the turns a task still takes. *)
Definition steps_left (env : Env) (os : os_state) (t : task) : nat :=
  match t_stage t with
  | AtOpen => turns env (t_gen t)
  | AtSeek fd =>
      match fd_table os !! fd with
      | Some f =>
          match files env !! of_path f with
          | Some (File data) => (length data + 2)%nat
          | _ => 2%nat
          end
      | None => 1%nat
      end
  | AtRead fd =>
      match fd_table os !! fd with
      | Some f =>
          match files env !! of_path f with
          | Some (File data) => (length data - of_pos f + 1)%nat
          | _ => 1%nat
          end
      | None => 1%nat
      end
  | Finished | Failed _ => O
  end.

(** ** Notions used in the statements *)

Definition dash : ascii := "-"%char.

(** How often [c] occurs in [s]. *)
Fixpoint count_char (c : ascii) (s : string) : nat :=
  match s with
  | EmptyString => O
  | String d r => ((if Ascii.eqb c d then 1 else 0) + count_char c r)%nat
  end.

(** A run of decimal digits and the number it denotes. *)
Fixpoint all_digits (s : string) : bool :=
  match s with
  | EmptyString => true
  | String c r => is_digit c && all_digits r
  end.

Fixpoint digits_value_from (acc : Z) (s : string) : Z :=
  match s with
  | EmptyString => acc
  | String c r => digits_value_from (10 * acc + (ord c - 48)) r
  end.

Definition digits_value (s : string) : Z := digits_value_from 0 s.

(** The header pattern of the specification, [bytes=<start>-<end?>]:
    the prefix, a non-empty run of digits, a dash, a run of digits. *)
Definition matches_range_pattern (h : string) : bool :=
  String.prefix "bytes=" h
  && match split_go "-" 0 (substring 6 (String.length h - 6) h) with
     | [a; b] => truthy a && all_digits a && all_digits b
     | _ => false
     end.

(** [int] accepts the text. *)
Definition is_int_literal (mx : Z) (s : string) : Prop :=
  exists v, py_int mx s = Ok v.

(** What the parser itself cannot read: once every [bytes=] is deleted,
    the text has no dash or more than one, or the field before the dash
    is not an integer literal, or the field behind it is not empty and
    not an integer literal. *)
Definition unparseable (mx : Z) (h : string) : Prop :=
  let r := replace h "bytes=" "" in
  count_char dash r <> 1%nat
  \/ exists a b, r = a +:+ String dash b
       /\ (~ is_int_literal mx a \/ (b <> EmptyString /\ ~ is_int_literal mx b)).

Definition content_range (s e fs : Z) : string :=
  "bytes " +:+ py_str s +:+ "-" +:+ py_str e +:+ "/" +:+ py_str fs.

(** A file tree with one regular file, for the worked examples: the
    bytes 0, 1, ..., 255, 0, 1, ... under the given name, a mime database
    that knows no type, and the default digit limit. *)
Definition byte_of_nat (n : nat) : Byte.byte :=
  default x00 (Byte.of_N (N.of_nat n mod 256)).

Definition sample_bytes (n : nat) : bytes := map byte_of_nat (seq 0 n).

(** The 10,000-byte file of the scenarios. *)
Definition bytes_10000 : bytes := sample_bytes (Z.to_nat 10000).

Definition sample_env (file_name : string) (data : bytes) : Env :=
  {| int_max_str_digits := 4300;
     resolve := fun p => "/" +:+ p;
     files := {[ "/" +:+ file_name := File data ]};
     guess_type := fun _ => None;
     naturalsize := fun _ => EmptyString |}.

(** Two requests for the same 5-byte file, read two bytes at a time
    from offsets 0 and 3, and an order in which the event loop runs
    them. *)
Definition two_readers_env : Env := sample_env "a" (sample_bytes 5).

Definition reader_0 : generator :=
  {| gen_path := "/a"; gen_start := 0; gen_chunk_size := 2 |}.

Definition reader_1 : generator :=
  {| gen_path := "/a"; gen_start := 3; gen_chunk_size := 2 |}.

Definition two_readers : list generator := [reader_0; reader_1].

Definition two_readers_schedule : list nat :=
  [0; 1; 0; 1; 1; 0; 0; 1; 0; 1; 0; 0; 0; 0]%nat.

(** * The other endpoints

    [list_directory], [download_file] and [upload_file], with
    [get_breadcrumbs] and what they use of [pathlib], [os.path] and
    [sorted]. What depends on the installed framework and on the
    system, the text of an [HTTPException] and the order of a directory
    scan, is a record [Host]. [upload_file] changes the file tree, so
    its model returns the tree it leaves. *)

(** ** Paths

    A [Path] object is held as its text, [str(p)]; what [pathlib] reads
    off a path is computed from the text the way [PurePosixPath] parses
    it. *)

Fixpoint ends_with (c : ascii) (s : string) : bool :=
  match s with
  | EmptyString => false
  | String d EmptyString => Ascii.eqb d c
  | String _ r => ends_with c r
  end.

(** [os.path.join(a, b)] *)
Definition posix_join (a b : string) : string :=
  if starts_with "/" b then b
  else if negb (truthy a) || ends_with "/" a then a +:+ b
  else a +:+ "/" +:+ b.

Definition string_tail (s : string) : string :=
  match s with
  | EmptyString => EmptyString
  | String _ r => r
  end.

(** The root of a path: ["/"], ["//"] for exactly two leading slashes,
    nothing for a relative path. *)
Definition path_root (s : string) : string :=
  if negb (starts_with "/" s) then EmptyString
  else if starts_with "/" (string_tail s)
          && negb (starts_with "/" (string_tail (string_tail s)))
       then "//"
       else "/".

(** A component of a path: not empty and not ["."]. *)
Definition is_component (x : string) : bool :=
  truthy x && negb (String.eqb x ".").

(** The components below the root. *)
Definition path_parts (s : string) : list string :=
  filter (fun x => is_component x = true) (split_go "/" 0 s).

(** The text of the path with the given root and components. *)
Definition path_str (root : string) (parts : list string) : string :=
  if truthy root then root +:+ String.concat "/" parts
  else match parts with
       | [] => "."
       | _ => String.concat "/" parts
       end.

(** [str(Path(s))] *)
Definition path_normal (s : string) : string :=
  path_str (path_root s) (path_parts s).

(** [str(Path(s).parent)] *)
Definition path_parent (s : string) : string :=
  path_str (path_root s) (removelast (path_parts s)).

(** [str(Path(a) / b)] *)
Definition path_div (a b : string) : string :=
  path_normal (posix_join a b).

(** [p.relative_to("/").parts] *)
Definition relative_to_root (p : string) : result (list string) :=
  if String.eqb (path_root p) "/" then Ok (path_parts p)
  else Raise (ValueError "path is not in the subpath of '/'").

(** ** [get_breadcrumbs] *)

Definition crumb (name path : string) : gmap string string :=
  <["path" := path]> (<["name" := name]> ∅).

(** The [for] loop: the crumbs appended for the parts that are left. *)
Fixpoint breadcrumbs_loop (parts : list string) (current_path : string)
  : list (gmap string string) :=
  match parts with
  | [] => []
  | part :: rest =>
      let current_path := posix_join current_path part in
      crumb part current_path :: breadcrumbs_loop rest current_path
  end.

Definition get_breadcrumbs (full_path : string)
  : result (list (gmap string string)) :=
  parts ← (if negb (String.eqb full_path "/") then relative_to_root full_path
           else Ok []);
  Ok (crumb "Root" "/" :: breadcrumbs_loop parts "/").

(** ** The framework and the directory scan *)

Record Host : Type := {
  (** [str(e)] of an [HTTPException], as the installed Starlette defines
      it *)
  http_exception_str : Z -> string -> string;
  (** the order in which the system lists the entries of a directory *)
  listdir_order : list string -> list string;
}.

(** [str(e)] for the exception classes of the model. *)
Definition exception_text (host : Host) (e : exn) : string :=
  match e with
  | HTTPException s d => http_exception_str host s d
  | _ => exn_str e
  end.

(** [k] is the path of an entry of the directory [d]. *)
Definition is_child (d k : string) : bool :=
  let prefix := if ends_with "/" d then d else d +:+ "/" in
  String.prefix prefix k
  && (let n := substring (String.length prefix)
                 (String.length k - String.length prefix) k in
      truthy n && negb (has_char "/" n)).

(** [list(p.iterdir())]: the paths of the entries of [p]. *)
Definition iterdir (host : Host) (env : Env) (p : string) : list string :=
  listdir_order host
    (filter (fun k => is_child p k = true) (map fst (map_to_list (files env)))).

(** ** [sorted]

    [sorted(xs, key=f)] is stable: of two items with equal keys, the one
    that is first in [xs] is first in the result. *)

Fixpoint insert_by {A K : Type} (lt : K -> K -> bool) (f : A -> K)
    (x : A) (l : list A) : list A :=
  match l with
  | [] => [x]
  | y :: r => if lt (f y) (f x) then y :: insert_by lt f x r else x :: y :: r
  end.

Definition sorted {A K : Type} (lt : K -> K -> bool) (f : A -> K)
    (l : list A) : list A :=
  foldr (insert_by lt f) [] l.

(** [<] on the keys [(bool, str)]: tuples compare at the first place
    where they differ, [False < True], and texts compare by code
    point. *)
Definition key_lt (a b : bool * string) : bool :=
  if Bool.eqb a.1 b.1 then String.ltb a.2 b.2 else negb a.1 && b.1.

(** [lambda x: (not x.is_dir, x.name.lower())] *)
Definition listing_key (x : FileInfo) : bool * string :=
  (negb (is_dir x), lower (name x)).

(** ** [list_directory] *)

Module DirectoryResponse.
Record t : Type := {
  current_path : string;
  files : list FileInfo;
  parent_path : option string;
  breadcrumbs : list (gmap string string);
}.
End DirectoryResponse.

(** [[f(x) for x in xs]] where [f] may raise. *)
Fixpoint map_result {A B : Type} (f : A -> result B) (l : list A)
  : result (list B) :=
  match l with
  | [] => Ok []
  | x :: r =>
      y ← f x;
      ys ← map_result f r;
      Ok (y :: ys)
  end.

(** The body of the [try] block. *)
Definition list_directory_try (host : Host) (env : Env) (path : string)
  : result DirectoryResponse.t :=
  let full_path := resolve env path in
  if negb (path_exists env full_path)
  then Raise (HTTPException 404 "Path not found")
  else if negb (path_is_dir env full_path)
  then Raise (HTTPException 400 "Not a directory")
  else
    files ← map_result (get_file_info env) (iterdir host env full_path);
    let parent_path :=
      if negb (String.eqb full_path "/") then Some (path_parent full_path)
      else None in
    crumbs ← get_breadcrumbs full_path;
    Ok {| DirectoryResponse.current_path := full_path;
          DirectoryResponse.files := sorted key_lt listing_key files;
          DirectoryResponse.parent_path := parent_path;
          DirectoryResponse.breadcrumbs := crumbs |}.

(** [except Exception as e]: every exception, the 404 and the 400
    included, leaves as a 500. *)
Definition list_directory (host : Host) (env : Env) (path : string)
  : result DirectoryResponse.t :=
  match list_directory_try host env path with
  | Ok r => Ok r
  | Raise e => Raise (HTTPException 500 (exception_text host e))
  end.

(** ** [download_file] *)




(** ** [upload_file] *)

(** The uploaded file: its name as the client sent it, and its
    content. *)
Record UploadFile : Type := {
  filename : string;
  upload_content : bytes;
}.

(** The directories a path runs through: the paths of its proper
    prefixes, from the root on. *)
Definition path_ancestors (s : string) : list string :=
  map (fun i => path_str (path_root s) (take i (path_parts s)))
    (seq 0 (length (path_parts s))).

(** The file tree with the content of one file replaced. *)
Definition with_file (env : Env) (k : string) (data : bytes) : Env :=
  {| int_max_str_digits := int_max_str_digits env;
     resolve := resolve env;
     files := <[k := File data]> (files env);
     guess_type := guess_type env;
     naturalsize := naturalsize env |}.

(** [aiofiles.open(p, 'wb')]: every directory on the way has to be
    there, and the path itself must not be a directory; the file is
    created, or emptied when it exists. The result is the key of the
    file in the tree. The tree carries no permissions, so no open is
    refused for them, and the texts of the system's errors are given
    without the path they name. *)
Definition open_wb (env : Env) (p : string) : result string * Env :=
  match
    list_find (fun a => path_is_dir env (resolve env a) = false) (path_ancestors p)
  with
  | Some (_, a) =>
      if path_exists env (resolve env a)
      then (Raise (OSError "[Errno 20] Not a directory"), env)
      else (Raise (FileNotFoundError "[Errno 2] No such file or directory"), env)
  | None =>
      let k := resolve env p in
      if path_is_dir env k
      then (Raise (IsADirectoryError "[Errno 21] Is a directory"), env)
      else (Ok k, with_file env k [])
  end.

(** [f.write(content)] at the end of the file. *)
Definition write_end (env : Env) (k : string) (content : bytes) : Env :=
  match files env !! k with
  | Some (File data) => with_file env k (data ++ content)%list
  | _ => env
  end.

(** The body of the [try] block, with the file tree it leaves. *)
Definition upload_file_try (env : Env) (path : string) (file : UploadFile)
  : result (gmap string string) * Env :=
  let full_path := resolve env path in
  if negb (path_exists env full_path) || negb (path_is_dir env full_path)
  then (Raise (HTTPException 400 "Invalid directory"), env)
  else
    let file_path := path_div full_path (filename file) in
    match open_wb env file_path with
    | (Raise e, env) => (Raise e, env)
    | (Ok k, env) =>
        let env :=
          foldl (fun env content => write_end env k content) env
            (read_loop (upload_content file) 0 (1024 * 1024)) in
        (Ok {[ "message" := "File " +:+ filename file +:+ " uploaded successfully" ]},
         env)
    end.

Definition upload_file (host : Host) (env : Env) (path : string) (file : UploadFile)
  : result (gmap string string) * Env :=
  match upload_file_try env path file with
  | (Ok r, env) => (Ok r, env)
  | (Raise e, env) => (Raise (HTTPException 500 (exception_text host e)), env)
  end.

(** ** Notions used in the statements on the other endpoints *)

(** A name as a directory holds it: a component without a slash. *)
Definition plain_name (x : string) : bool :=
  is_component x && negb (has_char "/" x).

(** The absolute path with the given components. *)
Definition path_text (parts : list string) : string :=
  "/" +:+ String.concat "/" parts.


(** A host and a small file tree for the worked examples: [/srv] holds
    two directories and two files, [/other] is a file. *)
Definition sample_host : Host :=
  {| http_exception_str := fun s d => py_str s +:+ ": " +:+ d;
     listdir_order := fun l => l |}.

Definition sample_tree : Env :=
  {| int_max_str_digits := 4300;
     resolve := fun p => path_div "/" p;
     files :=
       list_to_map
         [ ("/", Dir 4096); ("/srv", Dir 4096); ("/srv/b.txt", File [x00]);
           ("/srv/A.txt", File []); ("/srv/zdir", Dir 4096);
           ("/srv/Adir", Dir 4096); ("/srv/zdir/deep", File []);
           ("/other", File []) ];
     guess_type := fun _ => None;
     naturalsize := fun _ => EmptyString |}.

(** * Properties *)

(** ** [str.replace] and [str.split] *)

Lemma append_nil (s : string) : EmptyString +:+ s = s.
Proof. reflexivity. Qed.

Lemma append_cons (c : ascii) (a b : string) :
  String c a +:+ b = String c (a +:+ b).
Proof. reflexivity. Qed.

Lemma string_prefix_nil (s : string) : String.prefix EmptyString s = true.
Proof. by destruct s. Qed.

Lemma string_prefix_append (t s : string) : String.prefix t (t +:+ s) = true.
Proof.
  induction t as [|c t IH]; [by destruct s |].
  rewrite append_cons. simpl.
  destruct (ascii_dec c c); [exact IH | congruence].
Qed.

Lemma replace_go_skip (old new t s : string) :
  replace_go old new (String.length t) (t +:+ s) = replace_go old new 0 s.
Proof.
  induction t as [|c t IH]; [reflexivity |].
  rewrite append_cons. simpl. exact IH.
Qed.

(** A leading occurrence of [old] is replaced, and the scan goes on
    behind it. *)
Lemma replace_prefix (old new s : string) :
  old <> EmptyString ->
  replace (old +:+ s) old new = new +:+ replace s old new.
Proof.
  destruct old as [|c old]; [done | intros _].
  unfold replace. rewrite append_cons. cbn [replace_go].
  rewrite <- append_cons, string_prefix_append. cbn [String.length Nat.pred].
  by rewrite replace_go_skip.
Qed.

(** A text without the first character of [old] has no occurrence of
    it. *)
Lemma replace_absent (c : ascii) (old new s : string) :
  has_char c s = false -> replace s (String c old) new = s.
Proof.
  unfold replace. induction s as [|d s IH]; simpl; [done |].
  intros H. apply orb_false_iff in H as [Hcd Hs].
  destruct (ascii_dec c d) as [->|Hne].
  - by rewrite Ascii.eqb_refl in Hcd.
  - by rewrite IH.
Qed.

Lemma replace_cons_ne (c d : ascii) (old new s : string) :
  c <> d -> replace (String d s) (String c old) new = String d (replace s (String c old) new).
Proof.
  intros Hne. unfold replace. simpl.
  by destruct (ascii_dec c d).
Qed.

Lemma split_go_nonempty (sep : string) (k : nat) (s : string) :
  split_go sep k s <> [].
Proof.
  revert k. induction s as [|c s IH]; intros k; cbn [split_go]; [done |].
  destruct k; [| apply IH].
  destruct (String.prefix sep (String c s)); [done |].
  destruct (split_go sep 0 s); done.
Qed.

(** Splitting at ["-"], one character at a time. *)
Lemma split_dash_cons (c : ascii) (s : string) :
  split_go "-" 0 (String c s) =
  if Ascii.eqb c dash then EmptyString :: split_go "-" 0 s
  else match split_go "-" 0 s with
       | f :: fs => String c f :: fs
       | [] => [String c EmptyString]
       end.
Proof.
  cbn [split_go String.prefix String.length Nat.pred].
  destruct (ascii_dec "-" c) as [<-|Hne]; [by rewrite string_prefix_nil |].
  destruct (Ascii.eqb_spec c dash); [by subst | done].
Qed.

Lemma has_char_cons_false (c d : ascii) (s : string) :
  has_char c (String d s) = false -> Ascii.eqb c d = false /\ has_char c s = false.
Proof. cbn [has_char]. apply orb_false_iff. Qed.

Lemma split_dash_free (a : string) :
  has_char dash a = false -> split_go "-" 0 a = [a].
Proof.
  induction a as [|c a IH]; [done |].
  rewrite split_dash_cons. intros [Hc Ha]%has_char_cons_false.
  rewrite Ascii.eqb_sym, Hc. by rewrite IH.
Qed.

Lemma split_dash_app (a r : string) :
  has_char dash a = false ->
  split_go "-" 0 (a +:+ String dash r) = a :: split_go "-" 0 r.
Proof.
  induction a as [|c a IH].
  - intros _. rewrite append_nil, split_dash_cons. by rewrite Ascii.eqb_refl.
  - intros [Hc Ha]%has_char_cons_false.
    rewrite append_cons, split_dash_cons, Ascii.eqb_sym, Hc. by rewrite IH.
Qed.

(** The fields of a split at ["-"] hold no ["-"]. *)
Lemma split_dash_fields (s : string) :
  Forall (fun f => has_char dash f = false) (split_go "-" 0 s).
Proof.
  induction s as [|c s IH]; [by repeat constructor |].
  rewrite split_dash_cons.
  destruct (Ascii.eqb c dash) eqn:Hc; [by constructor |].
  assert (Hd : has_char dash (String c EmptyString) = false).
  { cbn [has_char]. by rewrite Ascii.eqb_sym, Hc. }
  destruct (split_go "-" 0 s) as [|f fs]; [by repeat constructor |].
  inversion IH; subst. constructor; [| done].
  cbn [has_char]. rewrite Ascii.eqb_sym, Hc. done.
Qed.

(** The number of fields is one more than the number of dashes. *)
Lemma length_split_dash (s : string) :
  length (split_go "-" 0 s) = S (count_char dash s).
Proof.
  induction s as [|c s IH]; [done |].
  rewrite split_dash_cons. cbn [count_char].
  rewrite (Ascii.eqb_sym dash c).
  pose proof (split_go_nonempty "-" 0 s) as Hne.
  destruct (Ascii.eqb c dash); simpl; [by rewrite IH |].
  destruct (split_go "-" 0 s); [done | exact IH].
Qed.

(** ** [int] *)

Lemma ord_inj (c d : ascii) : ord c = ord d -> c = d.
Proof.
  unfold ord. intros H. apply N2Z.inj in H.
  rewrite <- (ascii_N_embedding c), <- (ascii_N_embedding d). by rewrite H.
Qed.

Lemma eqb_ord (c d : ascii) : Ascii.eqb c d = (ord c =? ord d).
Proof.
  destruct (Ascii.eqb_spec c d) as [->|Hne].
  - by rewrite Z.eqb_refl.
  - symmetry. apply Z.eqb_neq. intros H. by apply Hne, ord_inj.
Qed.

Lemma digit_not_space (c : ascii) : is_digit c = true -> Py_ISSPACE c = false.
Proof. unfold is_digit, Py_ISSPACE. cbv zeta. lia. Qed.

Lemma digit_not_char (c d : ascii) :
  is_digit c = true -> (ord d <? 48) || (57 <? ord d) = true -> Ascii.eqb c d = false.
Proof. rewrite eqb_ord. unfold is_digit. cbv zeta. lia. Qed.

Lemma all_digits_ascii (s : string) : all_digits s = true -> is_ascii s = true.
Proof.
  induction s as [|c s IH]; [done |]. cbn [all_digits is_ascii].
  intros [Hc Hs]%andb_true_iff. rewrite IH by done.
  unfold is_digit in Hc. cbv zeta in Hc. lia.
Qed.

Lemma scan_all_digits (s : string) (acc n : Z) :
  all_digits s = true ->
  scan_digits false acc n s
  = Some (digits_value_from acc s, n + Z.of_nat (String.length s), EmptyString).
Proof.
  revert acc n. induction s as [|c s IH]; intros acc n.
  - intros _. cbn. do 3 f_equal. lia.
  - cbn [all_digits scan_digits digits_value_from String.length].
    intros [Hc Hs]%andb_true_iff. rewrite Hc, IH by done.
    do 3 f_equal. lia.
Qed.

(** A non-empty run of digits within the conversion limit is read as
    the number it denotes. *)
Lemma py_int_digits (mx : Z) (s : string) :
  s <> EmptyString -> all_digits s = true ->
  exceeds_limit mx (Z.of_nat (String.length s)) = false ->
  py_int mx s = Ok (digits_value s).
Proof.
  intros Hne Hd Hlim. unfold py_int, transform_decimal_and_space_to_ascii.
  rewrite all_digits_ascii by done.
  destruct s as [|c s]; [done |].
  pose proof Hd as Hd'. cbn [all_digits] in Hd'.
  apply andb_true_iff in Hd' as [Hc Hs].
  unfold PyLong_FromString. cbn [lstrip_space].
  rewrite digit_not_space by done. cbn [read_sign].
  rewrite !(digit_not_char c) by done. cbn [starts_with].
  rewrite (digit_not_char c) by done.
  rewrite scan_all_digits by done. rewrite Z.add_0_l, Hlim.
  cbn [String.length].
  destruct (Z.eqb_spec (Z.of_nat (S (String.length s))) 0) as [H0|_]; [lia |].
  cbn [lstrip_space]. unfold digits_value. f_equal. lia.
Qed.

Lemma py_int_empty (mx : Z) :
  py_int mx EmptyString = Raise (ValueError "invalid literal for int() with base 10").
Proof. reflexivity. Qed.

Lemma transform_go_dash_free (s : string) :
  has_char dash s = false -> has_char dash (transform_go s) = false.
Proof.
  induction s as [|c s IH]; [done |].
  intros [Hc Hs]%has_char_cons_false. cbn [transform_go].
  destruct (ord c <? 127) eqn:Hlt.
  { cbn [has_char]. by rewrite Hc, IH. }
  destruct (Py_UNICODE_ISSPACE c).
  { cbn [has_char]. by rewrite IH. }
  unfold Py_UNICODE_TODECIMAL. destruct (is_digit c) eqn:Hd; [| done].
  unfold is_digit in Hd. cbv zeta in Hd. lia.
Qed.

Lemma transform_dash_free (s : string) :
  has_char dash s = false ->
  has_char dash (transform_decimal_and_space_to_ascii s) = false.
Proof.
  unfold transform_decimal_and_space_to_ascii.
  destruct (is_ascii s); [done | apply transform_go_dash_free].
Qed.

Lemma lstrip_dash_free (s : string) :
  has_char dash s = false -> has_char dash (lstrip_space s) = false.
Proof.
  induction s as [|c s IH]; [done |].
  intros H. cbn [lstrip_space]. destruct (Py_ISSPACE c); [| done].
  apply has_char_cons_false in H as [_ Hs]. by apply IH.
Qed.

Lemma read_sign_dash_free (s : string) :
  has_char dash s = false -> (read_sign s).1 = 1.
Proof.
  destruct s as [|c s]; [done |].
  intros [Hc _]%has_char_cons_false. cbn [read_sign].
  destruct (Ascii.eqb c "+"); [done |].
  rewrite Ascii.eqb_sym. fold dash. by rewrite Hc.
Qed.

Lemma scan_digits_nonneg (s : string) (p : bool) (acc n v n' : Z) (rest : string) :
  scan_digits p acc n s = Some (v, n', rest) -> 0 <= acc -> 0 <= v.
Proof.
  revert p acc n. induction s as [|c s IH]; intros p acc n; cbn [scan_digits].
  - destruct p; [done |]. intros [= <- _ _]. done.
  - destruct (is_digit c) eqn:Hd.
    + intros H Hacc. eapply IH; [exact H |].
      unfold is_digit in Hd. cbv zeta in Hd. lia.
    + destruct (Ascii.eqb c "_").
      * destruct p; [done |]. intros H Hacc. by eapply IH.
      * destruct p; [done |]. intros [= <- _ _]. done.
Qed.

(** Without a ["-"] in the text, [int] gives no negative number. *)
Lemma py_int_nonneg (mx : Z) (s : string) (v : Z) :
  has_char dash s = false -> py_int mx s = Ok v -> 0 <= v.
Proof.
  intros Hs. unfold py_int, PyLong_FromString.
  pose proof (read_sign_dash_free _ (lstrip_dash_free _ (transform_dash_free _ Hs))) as Hsign.
  destruct (read_sign _) as [sign s']. cbn in Hsign. subst sign.
  destruct (starts_with "_" s'); [done |].
  destruct (scan_digits false 0 0 s') as [[[v' n] rest]|] eqn:Hscan; [| done].
  destruct (n =? 0); [done |].
  destruct (exceeds_limit mx n); [done |].
  destruct (lstrip_space rest); [| done].
  intros [= <-]. apply scan_digits_nonneg in Hscan; lia.
Qed.

(** ** [get_range_header] *)

(** The [try] block, with the binds opened. *)
Lemma get_range_header_try_eq (mx : Z) (h : string) (fs : Z) :
  get_range_header_try mx h fs =
  match split_go "-" 0 (replace h "bytes=" "") with
  | [a; b] =>
      match py_int mx a with
      | Raise e => Raise e
      | Ok start =>
          match (if truthy b then py_int mx b else Ok (fs - 1)) with
          | Raise e => Raise e
          | Ok end_ =>
              if (start >=? fs) || (end_ >=? fs) || (start >? end_)
              then Raise (HTTPException 416 "Invalid range")
              else Ok (start, end_, true)
          end
      end
  | [] | [_] => Raise (ValueError "not enough values to unpack")
  | _ => Raise (ValueError "too many values to unpack")
  end.
Proof.
  unfold get_range_header_try. cbn [split mbind result_bind].
  destruct (split_go "-" 0 (replace h "bytes=" "")) as [|a [|b [|c l]]]; reflexivity.
Qed.

Lemma get_range_header_never_raises (mx : Z) (h : string) (fs : Z) (e : exn) :
  get_range_header mx h fs <> Raise e.
Proof.
  unfold get_range_header. by destruct (get_range_header_try mx h fs).
Qed.

Lemma get_range_header_of_raise (mx : Z) (h : string) (fs : Z) (e : exn) :
  get_range_header_try mx h fs = Raise e ->
  get_range_header mx h fs = Ok (0, fs - 1, false).
Proof. unfold get_range_header. by intros ->. Qed.

(** What the [try] block returns is a partial range inside the file. *)
Lemma get_range_header_try_ok (mx : Z) (h : string) (fs s e : Z) (p : bool) :
  get_range_header_try mx h fs = Ok (s, e, p) ->
  p = true /\ 0 <= s /\ s <= e /\ e < fs.
Proof.
  rewrite get_range_header_try_eq.
  pose proof (split_dash_fields (replace h "bytes=" "")) as Hf.
  destruct (split_go "-" 0 (replace h "bytes=" "")) as [|a [|b [|c l]]]; try done.
  apply Forall_cons in Hf as [Ha _].
  destruct (py_int mx a) as [start|] eqn:Hstart; [| done].
  apply py_int_nonneg in Hstart; [| done].
  destruct (if truthy b then py_int mx b else Ok (fs - 1)) as [end_|]; [| done].
  destruct ((start >=? fs) || (end_ >=? fs) || (start >? end_)) eqn:Hchk; [done |].
  intros [= <- <- <-]. lia.
Qed.

(** Every result of [get_range_header] is the full-file default or a
    partial range inside the file. *)
Lemma get_range_header_result (mx : Z) (h : string) (fs s e : Z) (p : bool) :
  get_range_header mx h fs = Ok (s, e, p) ->
  (p = false /\ s = 0 /\ e = fs - 1) \/ (p = true /\ 0 <= s /\ s <= e /\ e < fs).
Proof.
  unfold get_range_header.
  destruct (get_range_header_try mx h fs) as [[[s' e'] p']|] eqn:Htry.
  - intros [= <- <- <-]. right. by eapply get_range_header_try_ok.
  - intros [= <- <- <-]. by left.
Qed.

Lemma has_char_count (c : ascii) (s : string) :
  has_char c s = false <-> count_char c s = O.
Proof.
  induction s as [|d s IH]; [done |]. cbn [has_char count_char].
  rewrite orb_false_iff, IH. destruct (Ascii.eqb c d); split; intros; try lia; naive_solver.
Qed.

Lemma count_char_append (c : ascii) (a b : string) :
  count_char c (a +:+ b) = (count_char c a + count_char c b)%nat.
Proof.
  induction a as [|d a IH]; [done |].
  rewrite append_cons. cbn [count_char]. rewrite IH. lia.
Qed.

Lemma has_char_append (c : ascii) (a b : string) :
  has_char c (a +:+ b) = has_char c a || has_char c b.
Proof.
  induction a as [|d a IH]; [done |].
  rewrite append_cons. cbn [has_char]. by rewrite IH, orb_assoc.
Qed.

Lemma all_digits_has_char (c : ascii) (s : string) :
  all_digits s = true -> is_digit c = false -> has_char c s = false.
Proof.
  intros Hs Hc. induction s as [|d s IH]; [done |].
  cbn [all_digits] in Hs. apply andb_true_iff in Hs as [Hd Hs].
  cbn [has_char]. rewrite IH by done.
  destruct (Ascii.eqb_spec c d) as [->|]; [congruence | done].
Qed.

(** A text with other than one dash does not unpack into two fields. *)
Lemma get_range_header_fields (mx : Z) (h : string) (fs : Z) :
  count_char dash (replace h "bytes=" "") <> 1%nat ->
  get_range_header mx h fs = Ok (0, fs - 1, false).
Proof.
  intros Hn.
  pose proof (length_split_dash (replace h "bytes=" "")) as Hlen.
  destruct (get_range_header_try mx h fs) as [r|e] eqn:Htry;
    [| by eapply get_range_header_of_raise].
  rewrite get_range_header_try_eq in Htry.
  destruct (split_go "-" 0 (replace h "bytes=" "")) as [|a [|b [|c l]]]; try done.
  cbn [length] in Hlen. lia.
Qed.

(** C10. For every file size and every suffix-form header [bytes=-N]
    (start omitted; [N] any text), [get_range_header] does not raise and
    returns the full-file default [(0, file_size - 1, False)]: the last-N
    reading is never applied. When [N] is a run of digits the exception
    caught is the [ValueError] of [int("")]. *)
Theorem get_range_header_suffix_form (mx : Z) (n : string) (fs : Z) :
  get_range_header mx ("bytes=-" +:+ n) fs = Ok (0, fs - 1, false)
  /\ (all_digits n = true ->
      get_range_header_try mx ("bytes=-" +:+ n) fs
      = Raise (ValueError "invalid literal for int() with base 10")).
Proof.
  assert (Hr : replace ("bytes=-" +:+ n) "bytes=" ""
               = String dash (replace n "bytes=" "")).
  { change ("bytes=-" +:+ n) with ("bytes=" +:+ String dash n).
    rewrite replace_prefix by done. rewrite append_nil.
    by apply replace_cons_ne. }
  assert (Htry : get_range_header_try mx ("bytes=-" +:+ n) fs =
                 match split_go "-" 0 (replace n "bytes=" "") with
                 | [_] => Raise (ValueError "invalid literal for int() with base 10")
                 | _ => Raise (ValueError "too many values to unpack")
                 end).
  { rewrite get_range_header_try_eq, Hr, split_dash_cons, Ascii.eqb_refl.
    pose proof (split_go_nonempty "-" 0 (replace n "bytes=" "")) as Hne.
    by destruct (split_go "-" 0 (replace n "bytes=" "")) as [|b [|c l]]. }
  split.
  - eapply get_range_header_of_raise with
      (e := match split_go "-" 0 (replace n "bytes=" "") with
            | [_] => ValueError "invalid literal for int() with base 10"
            | _ => ValueError "too many values to unpack"
            end).
    rewrite Htry. by destruct (split_go "-" 0 (replace n "bytes=" "")) as [|b [|c l]].
  - intros Hd. rewrite Htry.
    rewrite replace_absent by (by apply all_digits_has_char).
    rewrite split_dash_free; [done |]. by apply all_digits_has_char.
Qed.

Lemma get_range_header_suffix_form_witness :
  all_digits "500" = true
  /\ get_range_header 4300 "bytes=-500" 10000 = Ok (0, 9999, false)
  /\ get_range_header_try 4300 "bytes=-500" 10000
     = Raise (ValueError "invalid literal for int() with base 10").
Proof.
  split; [reflexivity |].
  destruct (get_range_header_suffix_form 4300 "500" 10000) as [H1 H2].
  split; [exact H1 | apply H2; reflexivity].
Defined.

(** C4, as stated, fails: the header [0-4] lacks the [bytes=] prefix, so
    it does not match the pattern of the specification, and for a
    10-byte file it is parsed as the partial range 0..4. *)
Lemma get_range_header_no_prefix_counterexample :
  matches_range_pattern "0-4" = false
  /\ get_range_header 4300 "0-4" 10 = Ok (0, 4, true)
  /\ ~ (forall (mx fs : Z) (h : string),
          0 < fs -> matches_range_pattern h = false ->
          get_range_header mx h fs = Ok (0, fs - 1, false)).
Proof.
  split; [reflexivity |]. split; [reflexivity |].
  intros H. specialize (H 4300 10 "0-4" eq_refl eq_refl). discriminate H.
Qed.

(** C4, amended. For every file size, a header that the parser cannot
    read (see [unparseable]; e.g. [bytes=abc-def]) makes
    [get_range_header] return the full-file default
    [(0, file_size - 1, False)] without raising, which is what the
    absent-header case resolves to. *)
Theorem get_range_header_unparseable (env : Env) (h : string) (fs : Z) :
  unparseable (int_max_str_digits env) h ->
  get_range_header (int_max_str_digits env) h fs = Ok (0, fs - 1, false)
  /\ resolved_range env (Some h) fs = resolved_range env None fs.
Proof.
  set (mx := int_max_str_digits env). intros Hu.
  assert (Hg : get_range_header mx h fs = Ok (0, fs - 1, false)).
  { destruct Hu as [Hn | (a & b & Hr & Hbad)]; [by apply get_range_header_fields |].
    destruct (decide (count_char dash (replace h "bytes=" "") = 1%nat)) as [H1|H1];
      [| by apply get_range_header_fields].
    rewrite Hr, count_char_append in H1. cbn [count_char] in H1.
    rewrite Ascii.eqb_refl in H1.
    assert (Ha : has_char dash a = false) by (apply has_char_count; lia).
    assert (Hb : has_char dash b = false) by (apply has_char_count; lia).
    destruct (get_range_header_try mx h fs) as [r|e] eqn:Htry;
      [| by eapply get_range_header_of_raise].
    exfalso. rewrite get_range_header_try_eq, Hr, split_dash_app in Htry by done.
    rewrite split_dash_free in Htry by done.
    destruct (py_int mx a) as [start|] eqn:Hstart; [| done].
    destruct Hbad as [Hna | [Hbne Hnb]]; [apply Hna; by exists start |].
    destruct b as [|c b]; [done |]. cbn [truthy] in Htry.
    destruct (py_int mx (String c b)) as [end_|] eqn:Hend; [| done].
    apply Hnb. by exists end_. }
  split; [exact Hg |].
  unfold resolved_range. fold mx. rewrite Hg. by destruct (truthy h).
Qed.

Lemma read_loop_eq (data : bytes) (pos : nat) (cs : Z) :
  read_loop data pos cs =
  match read_at data pos cs with
  | [] => []
  | chunk => chunk :: read_loop data (pos + length chunk) cs
  end.
Proof.
  rewrite read_loop_equation_1.
  generalize (inspect (read_at data pos cs)).
  intros [chunk Hc]. destruct chunk as [|b chunk]; cbn; by rewrite Hc.
Qed.

Lemma read_at_prefix (data : bytes) (pos : nat) (cs : Z) :
  cs <> 0 ->
  (read_at data pos cs ++ drop (pos + length (read_at data pos cs)) data)%list = drop pos data
  /\ (read_at data pos cs = [] -> drop pos data = []).
Proof.
  intros Hcs. unfold read_at. rewrite <- drop_drop.
  destruct (cs <? 0) eqn:Hneg.
  - rewrite drop_all, app_nil_r. done.
  - rewrite length_take.
    destruct (Nat.min_spec (Z.to_nat cs) (length (drop pos data))) as [[Hlt ->]|[Hge ->]].
    + rewrite take_drop. split; [done |].
      destruct (drop pos data); [done |]. destruct (Z.to_nat cs) eqn:Hn; [lia | done].
    + rewrite take_ge by lia. rewrite drop_all, app_nil_r. done.
Qed.

(** Iterated to its end, the generator yields every byte from the
    cursor to the end of the file, in order. *)
Lemma concat_read_loop (data : bytes) (pos : nat) (cs : Z) :
  cs <> 0 -> concat (read_loop data pos cs) = drop pos data.
Proof.
  intros Hcs.
  remember (length data - pos)%nat as n eqn:Hn.
  revert pos Hn. induction (lt_wf n) as [n _ IH]. intros pos ->.
  rewrite read_loop_eq.
  destruct (read_at_prefix data pos cs Hcs) as [Happ Hnil].
  destruct (read_at data pos cs) as [|b chunk] eqn:Hread.
  - by rewrite Hnil.
  - cbn [concat]. rewrite (IH (length data - (pos + length (b :: chunk)))%nat); [done | | done].
    assert (Hlen : length (drop pos data) = length ((b :: chunk) ++ drop (pos + length (b :: chunk)) data)%list)
      by (by rewrite Happ).
    rewrite length_drop, length_app in Hlen. cbn [length] in *. lia.
Qed.

(** ** [view_file] *)

Lemma resolved_range_result (env : Env) (range : option string) (fs : Z) :
  exists s e p,
    resolved_range env range fs = Ok (s, e, p)
    /\ ((p = false /\ s = 0 /\ e = fs - 1)
        \/ (p = true /\ 0 <= s /\ s <= e /\ e < fs)).
Proof.
  unfold resolved_range.
  destruct range as [r|]; [destruct (truthy r) |]; try by (do 3 eexists; split; [done | by left]).
  destruct (get_range_header (int_max_str_digits env) r fs) as [[[s e] p]|ex] eqn:Hg.
  - exists s, e, p. split; [done |]. by eapply get_range_header_result.
  - by apply get_range_header_never_raises in Hg.
Qed.

(** The response for a regular file, field by field. *)
Lemma view_file_found (env : Env) (path : string) (range : option string)
    (data : bytes) (s e : Z) (p : bool) :
  files env !! resolve env path = Some (File data) ->
  resolved_range env range (Z.of_nat (length data)) = Ok (s, e, p) ->
  exists resp,
    view_file env path range = Ok resp
    /\ body_iterator resp
       = {| gen_path := resolve env path; gen_start := s;
            gen_chunk_size := default_chunk_size |}
    /\ status_code resp = (if p then 206 else 200)
    /\ headers resp !! "Content-Type"
       = Some (py_or (guess_type env (resolve env path)) "application/octet-stream")
    /\ headers resp !! "Accept-Ranges" = Some "bytes"
    /\ headers resp !! "Content-Length" = Some (py_str (e - s + 1))
    /\ headers resp !! "Content-Range"
       = (if p then Some (content_range s e (Z.of_nat (length data))) else None).
Proof.
  intros Hfile Hrange.
  unfold view_file, view_file_try, path_exists, path_is_dir, stat_st_size.
  rewrite Hfile. cbn [negb orb mbind result_bind]. rewrite Hrange.
  cbn [mbind result_bind].
  destruct p; eexists; (split; [reflexivity |]); cbn [body_iterator status_code headers];
    repeat split; by simplify_map_eq.
Qed.

(** A response is only built for a regular file. *)
Lemma view_file_ok_file (env : Env) (path : string) (range : option string)
    (resp : StreamingResponse) :
  view_file env path range = Ok resp ->
  exists data, files env !! resolve env path = Some (File data).
Proof.
  unfold view_file, view_file_try, path_exists, path_is_dir.
  destruct (files env !! resolve env path) as [[n|data]|]; [done | by eexists | done].
Qed.

Lemma sample_env_lookup (file_name : string) (data : bytes) :
  files (sample_env file_name data) !! resolve (sample_env file_name data) file_name
  = Some (File data).
Proof. cbn [files resolve sample_env]. by rewrite lookup_singleton_eq. Qed.

Lemma read_at_nil (pos : nat) (cs : Z) : read_at [] pos cs = [].
Proof.
  unfold read_at. rewrite drop_nil. destruct (cs <? 0); [done | by rewrite take_nil].
Qed.

(** What the body of a response holds: every byte of the file from
    [start] on. The end of the range plays no part in it. *)
Lemma view_file_streams_to_eof (env : Env) (path : string) (range : option string)
    (data : bytes) (s e : Z) (p : bool) (resp : StreamingResponse) :
  files env !! resolve env path = Some (File data) ->
  resolved_range env range (Z.of_nat (length data)) = Ok (s, e, p) ->
  view_file env path range = Ok resp ->
  streamed_body env resp = Ok (drop (Z.to_nat s) data).
Proof.
  intros Hfile Hrange Hview.
  destruct (view_file_found env path range data s e p Hfile Hrange)
    as (resp' & Hview' & Hbody & _).
  rewrite Hview in Hview'. injection Hview' as <-.
  destruct (resolved_range_result env range (Z.of_nat (length data)))
    as (s' & e' & p' & Hr & Hcases).
  rewrite Hrange in Hr. injection Hr as <- <- <-.
  unfold streamed_body, iterate, async_iterate_file_chunks. rewrite Hbody.
  cbn [gen_path gen_start gen_chunk_size]. rewrite Hfile.
  destruct (Z.ltb_spec s 0) as [Hneg|_]; [lia |].
  cbn [mbind result_bind]. by rewrite concat_read_loop.
Qed.

(** C3. For every view request on a regular file, the status is 206
    exactly when the resolved range is partial and 200 otherwise, and
    [Content-Length] is [end - start + 1] of the resolved range: the
    file size for a full-file response, and for a partial one a size
    between 1 and the file size that equals the file size only when the
    slice is the whole file. *)
Theorem view_file_status_and_length (env : Env) (path : string)
    (range : option string) (data : bytes) :
  files env !! resolve env path = Some (File data) ->
  exists resp s e p,
    view_file env path range = Ok resp
    /\ resolved_range env range (Z.of_nat (length data)) = Ok (s, e, p)
    /\ (status_code resp = 206 <-> p = true)
    /\ (status_code resp = 200 <-> p = false)
    /\ headers resp !! "Content-Length" = Some (py_str (e - s + 1))
    /\ (p = false -> e - s + 1 = Z.of_nat (length data))
    /\ (p = true ->
        1 <= e - s + 1 <= Z.of_nat (length data)
        /\ (e - s + 1 = Z.of_nat (length data)
            <-> s = 0 /\ e = Z.of_nat (length data) - 1)).
Proof.
  intros Hfile.
  destruct (resolved_range_result env range (Z.of_nat (length data)))
    as (s & e & p & Hr & Hcases).
  destruct (view_file_found env path range data s e p Hfile Hr)
    as (resp & Hview & _ & Hst & _ & _ & Hcl & _).
  exists resp, s, e, p. rewrite Hst.
  repeat split; try done; destruct p; try done; try lia;
    destruct Hcases as [[? ?]|[? ?]]; try done; lia.
Qed.

Lemma view_file_status_and_length_witness :
  files (sample_env "f.bin" (sample_bytes 10))
    !! resolve (sample_env "f.bin" (sample_bytes 10)) "f.bin"
  = Some (File (sample_bytes 10))
  /\ exists resp s e p,
    view_file (sample_env "f.bin" (sample_bytes 10)) "f.bin" (Some "bytes=2-4") = Ok resp
    /\ resolved_range (sample_env "f.bin" (sample_bytes 10)) (Some "bytes=2-4")
         (Z.of_nat (length (sample_bytes 10))) = Ok (s, e, p)
    /\ (status_code resp = 206 <-> p = true)
    /\ (status_code resp = 200 <-> p = false)
    /\ headers resp !! "Content-Length" = Some (py_str (e - s + 1))
    /\ (p = false -> e - s + 1 = Z.of_nat (length (sample_bytes 10)))
    /\ (p = true ->
        1 <= e - s + 1 <= Z.of_nat (length (sample_bytes 10))
        /\ (e - s + 1 = Z.of_nat (length (sample_bytes 10))
            <-> s = 0 /\ e = Z.of_nat (length (sample_bytes 10)) - 1)).
Proof.
  split; [vm_compute; reflexivity |].
  apply (view_file_status_and_length (sample_env "f.bin" (sample_bytes 10)) "f.bin"
           (Some "bytes=2-4") (sample_bytes 10)).
  vm_compute; reflexivity.
Defined.

(** C7. Every view response carries [Accept-Ranges: bytes]; it carries
    [Content-Range] exactly when it is partial (status 206), and the
    value is then [bytes {start}-{end}/{file_size}]. *)
Theorem view_file_range_headers (env : Env) (path : string)
    (range : option string) (resp : StreamingResponse) :
  view_file env path range = Ok resp ->
  headers resp !! "Accept-Ranges" = Some "bytes"
  /\ (is_Some (headers resp !! "Content-Range") <-> status_code resp = 206)
  /\ exists data s e p,
       files env !! resolve env path = Some (File data)
       /\ resolved_range env range (Z.of_nat (length data)) = Ok (s, e, p)
       /\ (p = true <-> status_code resp = 206)
       /\ (status_code resp = 206 ->
           headers resp !! "Content-Range"
           = Some (content_range s e (Z.of_nat (length data)))).
Proof.
  intros Hview.
  destruct (view_file_ok_file env path range resp Hview) as [data Hfile].
  destruct (resolved_range_result env range (Z.of_nat (length data)))
    as (s & e & p & Hr & _).
  destruct (view_file_found env path range data s e p Hfile Hr)
    as (resp' & Hview' & _ & Hst & _ & Har & _ & Hcr).
  rewrite Hview in Hview'. injection Hview' as <-.
  rewrite Hst, Hcr. split; [done |]. split.
  - destruct p; (split; [intros [v Hv] | intros H206]); done.
  - exists data, s, e, p. by destruct p.
Qed.

Lemma view_file_range_headers_witness :
  exists resp,
    view_file (sample_env "f.bin" (sample_bytes 10)) "f.bin" (Some "bytes=2-4") = Ok resp
    /\ headers resp !! "Accept-Ranges" = Some "bytes"
    /\ (is_Some (headers resp !! "Content-Range") <-> status_code resp = 206)
    /\ headers resp !! "Content-Range" = Some "bytes 2-4/10".
Proof.
  destruct (view_file_found (sample_env "f.bin" (sample_bytes 10)) "f.bin"
              (Some "bytes=2-4") (sample_bytes 10) 2 4 true)
    as (resp & Hview & _); [vm_compute; reflexivity | vm_compute; reflexivity |].
  exists resp. split; [exact Hview |].
  destruct (view_file_range_headers _ _ _ _ Hview) as (Har & Hiff & _).
  split; [exact Har |]. split; [exact Hiff |].
  injection Hview as <-. vm_compute. reflexivity.
Defined.

(** C9. A zero-byte file requested without a range: the default range
    is [(0, -1, False)], the status is 200, [Content-Length] is ["0"],
    and the body is empty. *)
Theorem view_file_empty_file (env : Env) (path : string) :
  files env !! resolve env path = Some (File []) ->
  resolved_range env None 0 = Ok (0, -1, false)
  /\ exists resp,
       view_file env path None = Ok resp
       /\ gen_start (body_iterator resp) = 0
       /\ status_code resp = 200
       /\ headers resp !! "Content-Length" = Some "0"
       /\ iterate env (body_iterator resp) = Ok []
       /\ streamed_body env resp = Ok [].
Proof.
  intros Hfile. split; [reflexivity |].
  destruct (view_file_found env path None [] 0 (-1) false Hfile eq_refl)
    as (resp & Hview & Hbody & Hst & _ & _ & Hcl & _).
  assert (Hit : iterate env (body_iterator resp) = Ok []).
  { unfold iterate, async_iterate_file_chunks. rewrite Hbody.
    cbn [gen_path gen_start gen_chunk_size].
    rewrite Hfile. cbn [Z.ltb Z.compare]. by rewrite read_loop_eq, read_at_nil. }
  exists resp. split; [exact Hview |]. split; [by rewrite Hbody |].
  split; [exact Hst |]. split; [exact Hcl |]. split; [exact Hit |].
  unfold streamed_body. by rewrite Hit.
Qed.

Lemma view_file_empty_file_witness :
  files (sample_env "empty" []) !! resolve (sample_env "empty" []) "empty"
  = Some (File [])
  /\ resolved_range (sample_env "empty" []) None 0 = Ok (0, -1, false)
  /\ exists resp,
       view_file (sample_env "empty" []) "empty" None = Ok resp
       /\ gen_start (body_iterator resp) = 0
       /\ status_code resp = 200
       /\ headers resp !! "Content-Length" = Some "0"
       /\ iterate (sample_env "empty" []) (body_iterator resp) = Ok []
       /\ streamed_body (sample_env "empty" []) resp = Ok [].
Proof.
  split; [vm_compute; reflexivity |].
  apply (view_file_empty_file (sample_env "empty" []) "empty").
  vm_compute; reflexivity.
Defined.

Lemma replace_open_ended (s : string) :
  all_digits s = true ->
  replace ("bytes=" +:+ s +:+ "-") "bytes=" "" = s +:+ String dash "".
Proof.
  intros Hd. rewrite replace_prefix by done. rewrite append_nil.
  apply replace_absent. rewrite has_char_append.
  by rewrite (all_digits_has_char "b" s).
Qed.

(** With nothing behind the dash, the end is the last byte of the file
    in every result. *)
Lemma get_range_header_open_end (mx : Z) (s : string) (fs : Z) :
  all_digits s = true ->
  exists start p,
    get_range_header mx ("bytes=" +:+ s +:+ "-") fs = Ok (start, fs - 1, p).
Proof.
  intros Hd. unfold get_range_header.
  rewrite get_range_header_try_eq, replace_open_ended by done.
  rewrite split_dash_app by (by apply all_digits_has_char).
  cbn [split_go truthy].
  destruct (py_int mx s) as [start|]; [| by exists 0, false].
  destruct ((start >=? fs) || (fs - 1 >=? fs) || (start >? fs - 1));
    [by exists 0, false | by exists start, true].
Qed.

Lemma get_range_header_open (mx : Z) (s : string) (fs : Z) :
  s <> EmptyString -> all_digits s = true ->
  exceeds_limit mx (Z.of_nat (String.length s)) = false ->
  digits_value s < fs ->
  get_range_header mx ("bytes=" +:+ s +:+ "-") fs = Ok (digits_value s, fs - 1, true).
Proof.
  intros Hne Hd Hlim Hlt.
  unfold get_range_header.
  rewrite get_range_header_try_eq, replace_open_ended by done.
  rewrite split_dash_app by (by apply all_digits_has_char).
  cbn [split_go truthy]. rewrite py_int_digits by done.
  destruct (Z.geb_spec (digits_value s) fs); [lia |].
  destruct (Z.geb_spec (fs - 1) fs); [lia |].
  destruct (Z.gtb_spec (digits_value s) (fs - 1)); [lia | done].
Qed.

(** C6. For a regular file and an open-ended header [bytes=<start>-],
    <start> a run of digits denoting an offset inside the file, the
    parsed end is [file_size - 1]. When the run is within the conversion
    limit of [int] the parsed range is [(start, file_size - 1, True)] and
    the response is a 206 whose [Content-Length] is [file_size - start]. *)
Theorem view_file_open_ended (env : Env) (path : string) (data : bytes)
    (s : string) :
  files env !! resolve env path = Some (File data) ->
  s <> EmptyString -> all_digits s = true ->
  digits_value s < Z.of_nat (length data) ->
  (exists start p,
     get_range_header (int_max_str_digits env) ("bytes=" +:+ s +:+ "-")
       (Z.of_nat (length data))
     = Ok (start, Z.of_nat (length data) - 1, p))
  /\ (exceeds_limit (int_max_str_digits env) (Z.of_nat (String.length s)) = false ->
      get_range_header (int_max_str_digits env) ("bytes=" +:+ s +:+ "-")
        (Z.of_nat (length data))
      = Ok (digits_value s, Z.of_nat (length data) - 1, true)
      /\ exists resp,
           view_file env path (Some ("bytes=" +:+ s +:+ "-")) = Ok resp
           /\ status_code resp = 206
           /\ headers resp !! "Content-Length"
              = Some (py_str (Z.of_nat (length data) - digits_value s))).
Proof.
  intros Hfile Hne Hd Hlt.
  split; [by apply get_range_header_open_end |]. intros Hlim.
  pose proof (get_range_header_open _ s _ Hne Hd Hlim Hlt) as Hg.
  split; [exact Hg |].
  destruct (view_file_found env path (Some ("bytes=" +:+ s +:+ "-")) data
              (digits_value s) (Z.of_nat (length data) - 1) true Hfile)
    as (resp & Hview & _ & Hst & _ & _ & Hcl & _).
  { unfold resolved_range. by rewrite Hg. }
  exists resp. split; [exact Hview |]. split; [exact Hst |].
  rewrite Hcl. do 2 f_equal. lia.
Qed.

Lemma view_file_open_ended_witness :
  get_range_header 4300 "bytes=9990-" 10000 = Ok (9990, 9999, true)
  /\ exists resp,
       view_file (sample_env "f.bin" bytes_10000) "f.bin"
         (Some "bytes=9990-") = Ok resp
       /\ status_code resp = 206
       /\ headers resp !! "Content-Length" = Some "10".
Proof.
  assert (Hfile : files (sample_env "f.bin" bytes_10000)
                    !! resolve (sample_env "f.bin" bytes_10000) "f.bin"
                  = Some (File bytes_10000))
    by (vm_compute; reflexivity).
  assert (Hne : "9990" <> EmptyString) by discriminate.
  assert (Hd : all_digits "9990" = true) by reflexivity.
  assert (Hlim : exceeds_limit 4300 (Z.of_nat (String.length "9990")) = false)
    by reflexivity.
  assert (Hlt : digits_value "9990" < Z.of_nat (length bytes_10000))
    by (vm_compute; reflexivity).
  destruct (view_file_open_ended (sample_env "f.bin" bytes_10000) "f.bin"
              bytes_10000 "9990" Hfile Hne Hd Hlt)
    as [_ Hopen].
  destruct (Hopen Hlim) as [Hg (resp & Hview & Hst & Hcl)].
  split; [| exists resp; split; [exact Hview | split; [exact Hst |]]].
  - vm_compute. reflexivity.
  - rewrite Hcl. vm_compute. reflexivity.
Defined.

(** C1, on the code. For the 10,000-byte file and [bytes=5000-5999]
    the headers announce the 1000 bytes 5000..5999, and the body
    producer goes on to the end of the file: the streamed body is the
    5000 bytes 5000..9999, not the slice. *)
Theorem view_file_body_runs_past_end :
  exists resp,
    view_file (sample_env "f.bin" bytes_10000) "f.bin" (Some "bytes=5000-5999")
    = Ok resp
    /\ status_code resp = 206
    /\ headers resp !! "Content-Length" = Some "1000"
    /\ headers resp !! "Content-Range" = Some "bytes 5000-5999/10000"
    /\ streamed_body (sample_env "f.bin" bytes_10000) resp
       = Ok (drop 5000 bytes_10000)
    /\ length (drop 5000 bytes_10000) = 5000%nat
    /\ streamed_body (sample_env "f.bin" bytes_10000) resp
       <> Ok (take 1000 (drop 5000 bytes_10000)).
Proof.
  set (env := sample_env "f.bin" bytes_10000).
  assert (Hfile : files env !! resolve env "f.bin" = Some (File bytes_10000))
    by apply sample_env_lookup.
  assert (Hr : resolved_range env (Some "bytes=5000-5999")
                 (Z.of_nat (length bytes_10000)) = Ok (5000, 5999, true))
    by (vm_compute; reflexivity).
  destruct (view_file_found env "f.bin" _ _ _ _ _ Hfile Hr)
    as (resp & Hview & _ & Hst & _ & _ & Hcl & Hcr).
  pose proof (view_file_streams_to_eof env "f.bin" _ _ _ _ _ resp Hfile Hr Hview)
    as Hbody.
  exists resp. split; [exact Hview |]. split; [exact Hst |].
  split; [rewrite Hcl; vm_compute; reflexivity |].
  split; [rewrite Hcr; vm_compute; reflexivity |].
  split; [rewrite Hbody; reflexivity |].
  split; [vm_compute; reflexivity |].
  rewrite Hbody. intros H.
  apply (f_equal (fun r => match r with Ok b => length b | Raise _ => O end)) in H.
  vm_compute in H. discriminate H.
Qed.

(** C5, on the code. A file [movie.mkv] that the system mime database
    does not know is served by the view endpoint as
    [application/octet-stream]; the fallback table, which has
    [video/x-matroska] for it, is consulted by [get_file_info] only. *)
Theorem view_file_skips_fallback_table :
  (exists resp,
     view_file (sample_env "movie.mkv" (sample_bytes 10)) "movie.mkv" None = Ok resp
     /\ headers resp !! "Content-Type" = Some "application/octet-stream")
  /\ (exists info,
        get_file_info (sample_env "movie.mkv" (sample_bytes 10)) "/movie.mkv" = Ok info
        /\ mime_type info = Some "video/x-matroska")
  /\ mime_map !! ".mkv" = Some "video/x-matroska".
Proof.
  split; [| split].
  - destruct (view_file_found (sample_env "movie.mkv" (sample_bytes 10)) "movie.mkv"
                None (sample_bytes 10) 0 9 false)
      as (resp & Hview & _ & _ & Hct & _); [apply sample_env_lookup | reflexivity |].
    exists resp. split; [exact Hview | exact Hct].
  - eexists. split; [vm_compute; reflexivity | reflexivity].
  - vm_compute. reflexivity.
Qed.

(** C2, on the code. A range outside the file makes the [try] block
    raise the 416 [HTTPException], and the [except Exception] of the same
    function catches it: [get_range_header] returns the full-file default
    and the request is answered with a 200, for [start >= file_size], for
    [end >= file_size] and for [start > end] alike. No header makes
    [get_range_header] raise. *)
Theorem get_range_header_swallows_416 :
  get_range_header_try 4300 "bytes=20000-" 10000
  = Raise (HTTPException 416 "Invalid range")
  /\ get_range_header 4300 "bytes=20000-" 10000 = Ok (0, 9999, false)
  /\ get_range_header_try 4300 "bytes=0-10000" 10000
     = Raise (HTTPException 416 "Invalid range")
  /\ get_range_header 4300 "bytes=0-10000" 10000 = Ok (0, 9999, false)
  /\ get_range_header_try 4300 "bytes=7-3" 10000
     = Raise (HTTPException 416 "Invalid range")
  /\ get_range_header 4300 "bytes=7-3" 10000 = Ok (0, 9999, false)
  /\ (exists resp,
        view_file (sample_env "f.bin" bytes_10000) "f.bin" (Some "bytes=20000-")
        = Ok resp
        /\ status_code resp = 200
        /\ headers resp !! "Content-Length" = Some "10000")
  /\ (forall (mx : Z) (h : string) (fs : Z) (e : exn),
        get_range_header mx h fs <> Raise e).
Proof.
  do 6 (split; [reflexivity |]). split.
  - destruct (view_file_found (sample_env "f.bin" bytes_10000) "f.bin"
                (Some "bytes=20000-") bytes_10000 0 9999 false)
      as (resp & Hview & _ & Hst & _ & _ & Hcl & _);
      [apply sample_env_lookup | vm_compute; reflexivity |].
    exists resp. split; [exact Hview |]. split; [exact Hst |].
    rewrite Hcl. vm_compute. reflexivity.
  - apply get_range_header_never_raises.
Qed.

Lemma get_range_header_unparseable_witness :
  unparseable 4300 "bytes=abc-def"
  /\ get_range_header 4300 "bytes=abc-def" 10000 = Ok (0, 9999, false)
  /\ resolved_range (sample_env "f.bin" bytes_10000) (Some "bytes=abc-def") 10000
     = resolved_range (sample_env "f.bin" bytes_10000) None 10000.
Proof.
  assert (Hu : unparseable 4300 "bytes=abc-def").
  { right. exists "abc", "def". split; [reflexivity |].
    left. intros [v Hv]. vm_compute in Hv. discriminate Hv. }
  split; [exact Hu |].
  exact (get_range_header_unparseable (sample_env "f.bin" bytes_10000)
           "bytes=abc-def" 10000 Hu).
Defined.

(** ** Concurrent iteration *)

Lemma task_step_gen (env : Env) (os : os_state) (t : task) :
  t_gen (task_step env os t).2 = t_gen t.
Proof.
  unfold task_step, os_open, os_seek, os_read.
  destruct (t_stage t) as [|fd|fd| |e]; try done.
  - by destruct (files env !! gen_path (t_gen t)) as [[?|?]|].
  - destruct (fd_table os !! fd); [| done].
    by destruct (gen_start (t_gen t) <? 0).
  - destruct (fd_table os !! fd) as [f|]; [| done].
    destruct (files env !! of_path f) as [[?|data]|]; try done.
    by destruct (read_at data (of_pos f) (gen_chunk_size (t_gen t))).
Qed.

Lemma task_step_next_fd (env : Env) (os : os_state) (t : task) :
  (next_fd os <= next_fd (task_step env os t).1)%nat.
Proof.
  unfold task_step, os_open, os_seek, os_read.
  destruct (t_stage t) as [|fd|fd| |e]; try done.
  - destruct (files env !! gen_path (t_gen t)) as [[?|?]|]; cbn; lia.
  - destruct (fd_table os !! fd); [| done].
    by destruct (gen_start (t_gen t) <? 0).
  - destruct (fd_table os !! fd) as [f|]; [| done].
    destruct (files env !! of_path f) as [[?|data]|]; try done.
    by destruct (read_at data (of_pos f) (gen_chunk_size (t_gen t))).
Qed.

(** A step touches the entry of the stepping task only: every other
    entry of the table is as before. *)
Lemma task_step_frame (env : Env) (os : os_state) (t : task) (fd' : nat) :
  stage_fd (t_stage t) <> Some fd' -> (fd' < next_fd os)%nat ->
  fd_table (task_step env os t).1 !! fd' = fd_table os !! fd'.
Proof.
  intros Hne Hlt. unfold task_step, os_open, os_seek, os_read, os_close.
  destruct (t_stage t) as [|fd|fd| |e]; cbn [stage_fd] in Hne; try done.
  - destruct (files env !! gen_path (t_gen t)) as [[?|?]|]; try done.
    cbn. apply lookup_insert_ne. lia.
  - assert (fd <> fd') by congruence.
    destruct (fd_table os !! fd); cbn. 2: by rewrite lookup_delete_ne.
    destruct (gen_start (t_gen t) <? 0); cbn.
    + by rewrite lookup_delete_ne.
    + by rewrite lookup_insert_ne.
  - assert (fd <> fd') by congruence.
    destruct (fd_table os !! fd) as [f|]; cbn; [| by rewrite lookup_delete_ne].
    destruct (files env !! of_path f) as [[?|data]|]; cbn;
      try by rewrite lookup_delete_ne.
    destruct (read_at data (of_pos f) (gen_chunk_size (t_gen t))); cbn.
    + rewrite lookup_delete_ne by done. by rewrite lookup_insert_ne.
    + by rewrite lookup_insert_ne.
Qed.

(** The open file of a task after a step is the one it had, or a new
    one. *)
Lemma task_step_fd (env : Env) (os : os_state) (t : task) (fd : nat) :
  stage_fd (t_stage (task_step env os t).2) = Some fd ->
  stage_fd (t_stage t) = Some fd
  \/ (fd = next_fd os /\ next_fd (task_step env os t).1 = S (next_fd os)).
Proof.
  unfold task_step, os_open, os_seek, os_read.
  destruct (t_stage t) as [|fd0|fd0| |e] eqn:Hst; cbn [stage_fd];
    try (cbn; rewrite Hst; done).
  - destruct (files env !! gen_path (t_gen t)) as [[?|?]|]; try done.
    cbn. intros [= <-]. by right.
  - destruct (fd_table os !! fd0); [| done].
    destruct (gen_start (t_gen t) <? 0); [done | by left].
  - destruct (fd_table os !! fd0) as [f|]; [| done].
    destruct (files env !! of_path f) as [[?|data]|]; try done.
    destruct (read_at data (of_pos f) (gen_chunk_size (t_gen t))); [done | by left].
Qed.

Lemma task_inv_frame (env : Env) (os os' : os_state) (t : task) :
  task_inv env os t ->
  (forall fd, stage_fd (t_stage t) = Some fd ->
              fd_table os' !! fd = fd_table os !! fd) ->
  task_inv env os' t.
Proof.
  unfold task_inv. destruct (t_stage t) as [|fd|fd| |e]; try done.
  - intros (Hout & Hdata & Hfd) Hsame. by rewrite Hsame.
  - intros (data & pos & Hdata & Hfd & Hrest) Hsame.
    exists data, pos. by rewrite Hsame.
Qed.

Lemma iterate_file (env : Env) (g : generator) (data : bytes) :
  files env !! gen_path g = Some (File data) -> 0 <= gen_start g ->
  iterate env g = Ok (read_loop data (Z.to_nat (gen_start g)) (gen_chunk_size g)).
Proof.
  intros Hfile Hstart. unfold iterate, async_iterate_file_chunks. rewrite Hfile.
  destruct (Z.ltb_spec (gen_start g) 0); [lia | done].
Qed.

(** A step keeps the invariant of the stepping task. *)
Lemma task_step_inv (env : Env) (os : os_state) (t : task) :
  task_inv env os t ->
  task_inv env (task_step env os t).1 (task_step env os t).2.
Proof.
  unfold task_inv at 1, task_step.
  destruct (t_stage t) as [|fd|fd| |e] eqn:Hst.
  - (* open *)
    intros Hout. unfold os_open.
    destruct (files env !! gen_path (t_gen t)) as [[n|data]|] eqn:Hfile;
      unfold task_inv; cbn.
    + unfold iterate, async_iterate_file_chunks. by rewrite Hfile.
    + split; [done |]. split; [by exists data |]. by rewrite lookup_insert_eq.
    + unfold iterate, async_iterate_file_chunks. by rewrite Hfile.
  - (* seek *)
    intros (Hout & [data Hfile] & Hfd). unfold os_seek. rewrite Hfd.
    destruct (Z.ltb_spec (gen_start (t_gen t)) 0) as [Hneg|Hpos];
      unfold task_inv; cbn.
    + unfold iterate, async_iterate_file_chunks. rewrite Hfile.
      destruct (Z.ltb_spec (gen_start (t_gen t)) 0); [done | lia].
    + exists data, (Z.to_nat (gen_start (t_gen t))).
      rewrite lookup_insert_eq, Hout. done.
  - (* read *)
    intros (data & pos & Hfile & Hfd & Hstart & Hloop). unfold os_read.
    rewrite Hfd. cbn [of_path of_pos]. rewrite Hfile.
    rewrite (read_loop_eq data pos) in Hloop.
    destruct (read_at data pos (gen_chunk_size (t_gen t))) as [|b chunk] eqn:Hread;
      unfold task_inv; cbn.
    + rewrite (iterate_file env (t_gen t) data) by done.
      by rewrite Hloop, app_nil_r.
    + exists data, (pos + S (length chunk))%nat.
      rewrite lookup_insert_eq. repeat split; try done.
      by rewrite Hloop, <- app_assoc.
  - intros H. cbn. unfold task_inv. by rewrite Hst.
  - intros H. cbn. unfold task_inv. by rewrite Hst.
Qed.

Lemma task_step_fd_bound (env : Env) (os : os_state) (t : task) (fd : nat) :
  (forall fd0, stage_fd (t_stage t) = Some fd0 -> (fd0 < next_fd os)%nat) ->
  stage_fd (t_stage (task_step env os t).2) = Some fd ->
  (fd < next_fd (task_step env os t).1)%nat.
Proof.
  intros Hb Hfd. pose proof (task_step_next_fd env os t) as Hmono.
  destruct (task_step_fd env os t fd Hfd) as [Hold | [-> Hnext]].
  - specialize (Hb fd Hold). lia.
  - lia.
Qed.

Lemma read_at_length (data : bytes) (pos : nat) (size : Z) :
  (length (read_at data pos size) <= length data - pos)%nat.
Proof.
  unfold read_at. destruct (size <? 0).
  - by rewrite length_drop.
  - rewrite length_take, length_drop. lia.
Qed.

(** Every turn of a task that is not done brings it closer to the
    end. *)
Lemma task_step_progress (env : Env) (os : os_state) (t : task) :
  (steps_left env (task_step env os t).1 (task_step env os t).2
   <= steps_left env os t - 1)%nat.
Proof.
  unfold task_step, steps_left at 2.
  destruct (t_stage t) as [|fd|fd| |e] eqn:Hst.
  - unfold os_open, turns.
    destruct (files env !! gen_path (t_gen t)) as [[n|data]|] eqn:Hfile;
      unfold steps_left; cbn; try lia.
    rewrite lookup_insert_eq. cbn. rewrite Hfile. lia.
  - unfold os_seek. destruct (fd_table os !! fd) as [f|] eqn:Hfd;
      [| unfold steps_left; cbn; lia].
    destruct (gen_start (t_gen t) <? 0); unfold steps_left; cbn.
    + destruct (files env !! of_path f) as [[?|?]|]; lia.
    + rewrite lookup_insert_eq. cbn.
      destruct (files env !! of_path f) as [[?|?]|]; lia.
  - unfold os_read. destruct (fd_table os !! fd) as [f|] eqn:Hfd;
      [| unfold steps_left; cbn; lia].
    destruct (files env !! of_path f) as [[n|data]|] eqn:Hfile;
      try (unfold steps_left; cbn; lia).
    pose proof (read_at_length data (of_pos f) (gen_chunk_size (t_gen t))) as Hlen.
    destruct (read_at data (of_pos f) (gen_chunk_size (t_gen t))) as [|b chunk];
      unfold steps_left; cbn; [lia |].
    rewrite lookup_insert_eq. cbn. rewrite Hfile. cbn in Hlen. lia.
  - cbn. unfold steps_left. rewrite Hst. lia.
  - cbn. unfold steps_left. rewrite Hst. lia.
Qed.

Lemma steps_left_frame (env : Env) (os os' : os_state) (t : task) :
  (forall fd, stage_fd (t_stage t) = Some fd ->
              fd_table os' !! fd = fd_table os !! fd) ->
  steps_left env os' t = steps_left env os t.
Proof.
  unfold steps_left. destruct (t_stage t) as [|fd|fd| |e]; try done.
  - intros H. by rewrite H.
  - intros H. by rewrite H.
Qed.

Lemma steps_left_done (env : Env) (os : os_state) (t : task) :
  steps_left env os t = O ->
  t_stage t = Finished \/ exists e, t_stage t = Failed e.
Proof.
  unfold steps_left, turns. destruct (t_stage t) as [|fd|fd| |e].
  - destruct (files env !! gen_path (t_gen t)) as [[?|?]|]; lia.
  - destruct (fd_table os !! fd) as [f|]; [| lia].
    destruct (files env !! of_path f) as [[?|?]|]; lia.
  - destruct (fd_table os !! fd) as [f|]; [| lia].
    destruct (files env !! of_path f) as [[?|?]|]; lia.
  - by left.
  - right. by exists e.
Qed.

Lemma pool_step_eq (env : Env) (st : os_state * list task) (i : nat) (t : task) :
  st.2 !! i = Some t ->
  pool_step env st i
  = ((task_step env st.1 t).1, <[i := (task_step env st.1 t).2]> st.2).
Proof.
  intros Hi. unfold pool_step. rewrite Hi. by destruct (task_step env st.1 t).
Qed.

Lemma pool_step_none (env : Env) (st : os_state * list task) (i : nat) :
  st.2 !! i = None -> pool_step env st i = st.
Proof. intros Hi. unfold pool_step. by rewrite Hi. Qed.

(** The entries of the other tasks are out of reach of the stepping
    one. *)
Lemma pool_step_frame (env : Env) (st : os_state * list task) (i k : nat)
    (t tk : task) (fd : nat) :
  pool_inv env st -> st.2 !! i = Some t -> st.2 !! k = Some tk -> k <> i ->
  stage_fd (t_stage tk) = Some fd ->
  fd_table (task_step env st.1 t).1 !! fd = fd_table st.1 !! fd.
Proof.
  intros (_ & Hbound & Hdist) Hi Hk Hne Hfd. apply task_step_frame.
  - intros Hfd'. apply Hne. by eapply (Hdist k i tk t fd).
  - by eapply Hbound.
Qed.

Lemma pool_step_inv (env : Env) (st : os_state * list task) (i : nat) :
  pool_inv env st -> pool_inv env (pool_step env st i).
Proof.
  intros Hinv. destruct (st.2 !! i) as [t|] eqn:Hi;
    [| by rewrite pool_step_none].
  rewrite (pool_step_eq env st i t Hi).
  pose proof Hinv as (Htask & Hbound & Hdist).
  assert (Hlen : (i < length st.2)%nat) by (by eapply lookup_lt_Some).
  pose proof (task_step_next_fd env st.1 t) as Hmono.
  split; [| split]; cbn [fst snd].
  - intros k tk Hk. destruct (decide (k = i)) as [->|Hne].
    + rewrite list_lookup_insert_eq in Hk by done. injection Hk as <-.
      apply task_step_inv. by eapply Htask.
    + rewrite list_lookup_insert_ne in Hk by done.
      eapply task_inv_frame; [by eapply Htask |].
      intros fd Hfd. by apply (pool_step_frame env st i k t tk fd).
  - intros k tk fd Hk Hfd. destruct (decide (k = i)) as [->|Hne].
    + rewrite list_lookup_insert_eq in Hk by done. injection Hk as <-.
      apply task_step_fd_bound; [| done]. intros fd0. by apply (Hbound i t fd0).
    + rewrite list_lookup_insert_ne in Hk by done.
      specialize (Hbound k tk fd Hk Hfd). lia.
  - intros k j tk tj fd Hk Hj Hfk Hfj.
    destruct (decide (k = i)) as [->|Hki], (decide (j = i)) as [->|Hji]; [done | | |].
    + rewrite list_lookup_insert_eq in Hk by done. injection Hk as <-.
      rewrite list_lookup_insert_ne in Hj by done.
      destruct (task_step_fd env st.1 t fd Hfk) as [Hold | [-> _]].
      * by eapply (Hdist i j t tj fd).
      * specialize (Hbound j tj _ Hj Hfj). lia.
    + rewrite list_lookup_insert_eq in Hj by done. injection Hj as <-.
      rewrite list_lookup_insert_ne in Hk by done.
      destruct (task_step_fd env st.1 t fd Hfj) as [Hold | [-> _]].
      * by eapply (Hdist k i tk t fd).
      * specialize (Hbound k tk _ Hk Hfk). lia.
    + rewrite list_lookup_insert_ne in Hk by done.
      rewrite list_lookup_insert_ne in Hj by done.
      by eapply (Hdist k j tk tj fd).
Qed.

Lemma run_schedule_inv (env : Env) (sched : list nat) (st : os_state * list task) :
  pool_inv env st -> pool_inv env (run_schedule env sched st).
Proof.
  unfold run_schedule. revert st.
  induction sched as [|i sched IH]; intros st Hinv; [done |].
  cbn [foldl]. apply IH. by apply pool_step_inv.
Qed.

Lemma spawn_inv (env : Env) (gens : list generator) : pool_inv env (spawn gens).
Proof.
  unfold spawn. split; [| split]; cbn [fst snd].
  - intros i t Hi. apply list_lookup_fmap_Some in Hi as (g & -> & _). done.
  - intros i t fd Hi. apply list_lookup_fmap_Some in Hi as (g & -> & _). done.
  - intros i j ti tj fd Hi _. apply list_lookup_fmap_Some in Hi as (g & -> & _). done.
Qed.

Lemma pool_step_gens (env : Env) (st : os_state * list task) (i : nat) :
  map t_gen (pool_step env st i).2 = map t_gen st.2.
Proof.
  destruct (st.2 !! i) as [t|] eqn:Hi; [| by rewrite pool_step_none].
  rewrite (pool_step_eq env st i t Hi). cbn [snd].
  change (map t_gen ?l) with (t_gen <$> l).
  rewrite list_fmap_insert, task_step_gen.
  apply list_insert_id. by rewrite list_lookup_fmap, Hi.
Qed.

Lemma run_schedule_gens (env : Env) (sched : list nat) (st : os_state * list task) :
  map t_gen (run_schedule env sched st).2 = map t_gen st.2.
Proof.
  unfold run_schedule. revert st.
  induction sched as [|i sched IH]; intros st; [done |].
  cbn [foldl]. by rewrite IH, pool_step_gens.
Qed.

Lemma spawn_gens (gens : list generator) : map t_gen (spawn gens).2 = gens.
Proof.
  unfold spawn. cbn [snd]. rewrite map_map. cbn. apply map_id.
Qed.

Lemma pool_step_progress (env : Env) (st : os_state * list task) (i j : nat)
    (t : task) :
  pool_inv env st -> st.2 !! i = Some t ->
  exists t1,
    (pool_step env st j).2 !! i = Some t1
    /\ (steps_left env (pool_step env st j).1 t1
        <= steps_left env st.1 t - (if Nat.eqb i j then 1 else 0))%nat.
Proof.
  intros Hinv Hi.
  destruct (st.2 !! j) as [tj|] eqn:Hj.
  - rewrite (pool_step_eq env st j tj Hj). cbn [fst snd].
    assert (Hlen : (j < length st.2)%nat) by (by eapply lookup_lt_Some).
    destruct (Nat.eqb_spec i j) as [->|Hne].
    + rewrite Hi in Hj. injection Hj as <-.
      eexists. split; [by apply list_lookup_insert_eq |].
      apply task_step_progress.
    + exists t. split; [by rewrite list_lookup_insert_ne |].
      rewrite (steps_left_frame env st.1); [lia |].
      intros fd Hfd. by apply (pool_step_frame env st j i tj t fd).
  - rewrite pool_step_none by done. exists t. split; [done |].
    destruct (Nat.eqb_spec i j) as [->|Hne]; [congruence | lia].
Qed.

Lemma run_schedule_progress (env : Env) (sched : list nat)
    (st : os_state * list task) (i : nat) (t : task) :
  pool_inv env st -> st.2 !! i = Some t ->
  exists t',
    (run_schedule env sched st).2 !! i = Some t'
    /\ (steps_left env (run_schedule env sched st).1 t'
        <= steps_left env st.1 t - count_turns i sched)%nat.
Proof.
  unfold run_schedule. revert st t.
  induction sched as [|j sched IH]; intros st t Hinv Hi.
  - exists t. split; [done |]. cbn. lia.
  - cbn [foldl count_turns].
    destruct (pool_step_progress env st i j t Hinv Hi) as (t1 & Hi1 & Hle1).
    destruct (IH (pool_step env st j) t1 (pool_step_inv env st j Hinv) Hi1)
      as (t' & Hi' & Hle').
    exists t'. split; [done |]. lia.
Qed.

(** C8. Any number of generators, over the same file or not, iterated
    concurrently under any schedule: what a task has yielded is at every
    moment a prefix of what its generator yields when it runs alone; a
    task that is done has yielded exactly that sequence (or failed with
    the same exception); and a task that got its [turns] is done. For a
    generator on a regular file the bytes yielded are the bytes of the
    file from its own start on, whatever the other tasks did. *)
Theorem concurrent_iteration_isolated (env : Env) (gens : list generator)
    (sched : list nat) (i : nat) (t : task) :
  (run_schedule env sched (spawn gens)).2 !! i = Some t ->
  exists g,
    gens !! i = Some g /\ t_gen t = g
    /\ (t_stage t = Finished -> iterate env g = Ok (t_out t))
    /\ (forall e, t_stage t = Failed e -> iterate env g = Raise e)
    /\ (forall chunks, iterate env g = Ok chunks -> t_out t `prefix_of` chunks)
    /\ ((turns env g <= count_turns i sched)%nat ->
        t_stage t = Finished \/ exists e, t_stage t = Failed e)
    /\ (forall data,
          files env !! gen_path g = Some (File data) ->
          0 <= gen_start g -> gen_chunk_size g <> 0 ->
          (turns env g <= count_turns i sched)%nat ->
          t_stage t = Finished
          /\ concat (t_out t) = drop (Z.to_nat (gen_start g)) data).
Proof.
  intros Hi.
  pose proof (run_schedule_inv env sched _ (spawn_inv env gens)) as Hinv.
  pose proof (run_schedule_gens env sched (spawn gens)) as Hgens.
  rewrite spawn_gens in Hgens.
  assert (Hg : gens !! i = Some (t_gen t)).
  { rewrite <- Hgens. change (map t_gen ?l) with (t_gen <$> l).
    by rewrite list_lookup_fmap, Hi. }
  destruct Hinv as (Htask & _ & _). specialize (Htask i t Hi).
  assert (Hfin : t_stage t = Finished -> iterate env (t_gen t) = Ok (t_out t)).
  { intros Hst. unfold task_inv in Htask. by rewrite Hst in Htask. }
  assert (Hfail : forall e, t_stage t = Failed e -> iterate env (t_gen t) = Raise e).
  { intros e Hst. unfold task_inv in Htask. by rewrite Hst in Htask. }
  assert (Hdone : (turns env (t_gen t) <= count_turns i sched)%nat ->
                  t_stage t = Finished \/ exists e, t_stage t = Failed e).
  { intros Hturns.
    assert (Hi0 : (spawn gens).2 !! i
                  = Some {| t_gen := t_gen t; t_stage := AtOpen; t_out := [] |}).
    { unfold spawn. cbn [snd].
      change (map ?f ?l) with (f <$> l). by rewrite list_lookup_fmap, Hg. }
    destruct (run_schedule_progress env sched _ i _ (spawn_inv env gens) Hi0)
      as (t' & Hi' & Hle).
    rewrite Hi in Hi'. injection Hi' as <-.
    apply (steps_left_done env (run_schedule env sched (spawn gens)).1).
    unfold steps_left at 2 in Hle. cbn [t_stage t_gen] in Hle. lia. }
  exists (t_gen t).
  split; [exact Hg |]. split; [reflexivity |]. split; [exact Hfin |].
  split; [exact Hfail |]. split; [| split; [exact Hdone |]].
  - intros chunks Hit. unfold task_inv in Htask.
    destruct (t_stage t) as [|fd|fd| |e] eqn:Hst.
    + rewrite Htask. apply prefix_nil.
    + destruct Htask as [-> _]. apply prefix_nil.
    + destruct Htask as (data & pos & Hfile & _ & Hstart & Hloop).
      rewrite (iterate_file env _ data Hfile Hstart) in Hit.
      injection Hit as <-. rewrite Hloop. by apply prefix_app_r.
    + rewrite Htask in Hit. by injection Hit as <-.
    + by rewrite Htask in Hit.
  - intros data Hfile Hstart Hcs Hturns.
    pose proof (iterate_file env _ data Hfile Hstart) as Halone.
    destruct (Hdone Hturns) as [Hst | [e Hst]].
    + split; [exact Hst |]. specialize (Hfin Hst). rewrite Halone in Hfin.
      injection Hfin as <-. by apply concat_read_loop.
    + specialize (Hfail e Hst). by rewrite Halone in Hfail.
Qed.

Lemma concurrent_iteration_isolated_witness :
  exists t,
    (run_schedule two_readers_env two_readers_schedule (spawn two_readers)).2 !! 0%nat
    = Some t
    /\ t_stage t = Finished
    /\ t_out t = [[x00; x01]; [x02; x03]; [x04]]
    /\ iterate two_readers_env reader_0 = Ok (t_out t)
    /\ concat (t_out t) = drop (Z.to_nat (gen_start reader_0)) (sample_bytes 5).
Proof.
  eexists. split; [vm_compute; reflexivity |].
  split; [reflexivity |]. split; [reflexivity |].
  destruct (concurrent_iteration_isolated two_readers_env two_readers
              two_readers_schedule 0
              {| t_gen := reader_0; t_stage := Finished;
                 t_out := [[x00; x01]; [x02; x03]; [x04]] |})
    as (g & Hg & Hgen & Hfin & _ & _ & _ & Hbytes); [vm_compute; reflexivity |].
  cbn [t_gen] in Hgen. subst g. split.
  - apply Hfin. reflexivity.
  - apply (Hbytes (sample_bytes 5)); [vm_compute; reflexivity | done | done |].
    vm_compute. lia.
Defined.

(** * Further properties of the streaming path *)

(** ** Explicit ranges *)

Lemma replace_explicit (a b : string) :
  all_digits a = true -> all_digits b = true ->
  replace ("bytes=" +:+ a +:+ "-" +:+ b) "bytes=" "" = a +:+ String dash b.
Proof.
  intros Ha Hb. rewrite replace_prefix by done. rewrite append_nil.
  apply replace_absent. rewrite has_char_append.
  rewrite (all_digits_has_char "b" a) by done.
  change ("-" +:+ b) with (String dash b). cbn [has_char orb].
  by rewrite (all_digits_has_char "b" b).
Qed.

Lemma get_range_header_explicit (mx : Z) (a b : string) (fs : Z) :
  a <> EmptyString -> b <> EmptyString ->
  all_digits a = true -> all_digits b = true ->
  exceeds_limit mx (Z.of_nat (String.length a)) = false ->
  exceeds_limit mx (Z.of_nat (String.length b)) = false ->
  digits_value a <= digits_value b -> digits_value b < fs ->
  get_range_header mx ("bytes=" +:+ a +:+ "-" +:+ b) fs
  = Ok (digits_value a, digits_value b, true).
Proof.
  intros Hane Hbne Ha Hb Hla Hlb Hab Hbf.
  unfold get_range_header.
  rewrite get_range_header_try_eq, replace_explicit by done.
  rewrite split_dash_app by (by apply all_digits_has_char).
  rewrite split_dash_free by (by apply all_digits_has_char).
  rewrite (py_int_digits mx a) by done.
  destruct b as [|c b]; [done |]. cbn [truthy].
  rewrite (py_int_digits mx (String c b)) by done.
  destruct (Z.geb_spec (digits_value a) fs); [lia |].
  destruct (Z.geb_spec (digits_value (String c b)) fs); [lia |].
  destruct (Z.gtb_spec (digits_value a) (digits_value (String c b))); [lia | done].
Qed.

(** X1. A header [bytes=<a>-<b>] with [a <= b] inside the file is
    served as that range: status 206, [Content-Range: bytes a-b/size],
    [Content-Length] [b - a + 1], and the body producer is opened at
    [a]. *)
Theorem view_file_explicit_range (env : Env) (path : string) (data : bytes)
    (a b : string) :
  files env !! resolve env path = Some (File data) ->
  a <> EmptyString -> b <> EmptyString ->
  all_digits a = true -> all_digits b = true ->
  exceeds_limit (int_max_str_digits env) (Z.of_nat (String.length a)) = false ->
  exceeds_limit (int_max_str_digits env) (Z.of_nat (String.length b)) = false ->
  digits_value a <= digits_value b -> digits_value b < Z.of_nat (length data) ->
  exists resp,
    view_file env path (Some ("bytes=" +:+ a +:+ "-" +:+ b)) = Ok resp
    /\ status_code resp = 206
    /\ headers resp !! "Content-Range"
       = Some (content_range (digits_value a) (digits_value b)
                 (Z.of_nat (length data)))
    /\ headers resp !! "Content-Length"
       = Some (py_str (digits_value b - digits_value a + 1))
    /\ gen_start (body_iterator resp) = digits_value a.
Proof.
  intros Hfile Hane Hbne Ha Hb Hla Hlb Hab Hbf.
  pose proof (get_range_header_explicit _ a b _ Hane Hbne Ha Hb Hla Hlb Hab Hbf) as Hg.
  destruct (view_file_found env path (Some ("bytes=" +:+ a +:+ "-" +:+ b)) data
              (digits_value a) (digits_value b) true Hfile)
    as (resp & Hview & Hbody & Hst & _ & _ & Hcl & Hcr).
  { unfold resolved_range. by rewrite Hg. }
  exists resp. rewrite Hbody. done.
Qed.

Lemma view_file_explicit_range_witness :
  exists resp,
    view_file (sample_env "f.bin" bytes_10000) "f.bin" (Some "bytes=5000-5999")
    = Ok resp
    /\ status_code resp = 206
    /\ headers resp !! "Content-Range" = Some "bytes 5000-5999/10000"
    /\ headers resp !! "Content-Length" = Some "1000"
    /\ gen_start (body_iterator resp) = 5000.
Proof.
  assert (Hlen : digits_value "5999" < Z.of_nat (length bytes_10000))
    by (vm_compute; reflexivity).
  destruct (view_file_explicit_range (sample_env "f.bin" bytes_10000) "f.bin"
              bytes_10000 "5000" "5999")
    as (resp & Hview & Hst & Hcr & Hcl & Hstart);
    [ vm_compute; reflexivity | discriminate | discriminate | reflexivity
    | reflexivity | reflexivity | reflexivity | vm_compute; discriminate
    | exact Hlen | ].
  exists resp. split; [exact Hview |]. split; [exact Hst |].
  split; [rewrite Hcr; vm_compute; reflexivity |].
  split; [rewrite Hcl; vm_compute; reflexivity | exact Hstart].
Defined.

(** X2. [get_range_header] never raises, and what it returns is either
    the full-file default or a partial range inside the file; for a file
    size of zero or less it is the default whatever the header says. *)
Theorem get_range_header_in_bounds (mx : Z) (h : string) (fs : Z) :
  exists s e p,
    get_range_header mx h fs = Ok (s, e, p)
    /\ ((p = false /\ s = 0 /\ e = fs - 1)
        \/ (p = true /\ 0 <= s /\ s <= e /\ e < fs))
    /\ (fs <= 0 -> p = false).
Proof.
  destruct (get_range_header mx h fs) as [[[s e] p]|ex] eqn:Hg;
    [| by apply get_range_header_never_raises in Hg].
  exists s, e, p. split; [done |].
  pose proof (get_range_header_result mx h fs s e p Hg) as Hcases.
  split; [exact Hcases |]. intros Hfs.
  destruct Hcases as [[-> _]|(_ & H0 & Hse & Hef)]; [done | lia].
Qed.

Lemma get_range_header_in_bounds_witness :
  get_range_header 4300 "bytes=2-5" 10 = Ok (2, 5, true)
  /\ get_range_header 4300 "bytes=2-5" 0 = Ok (0, -1, false).
Proof.
  split.
  - destruct (get_range_header_in_bounds 4300 "bytes=2-5" 10)
      as (s & e & p & Hg & _ & _).
    rewrite Hg. vm_compute in Hg. symmetry. exact Hg.
  - destruct (get_range_header_in_bounds 4300 "bytes=2-5" 0)
      as (s & e & p & Hg & _ & _).
    rewrite Hg. vm_compute in Hg. symmetry. exact Hg.
Defined.

(** X3. An empty file is served whole for every range parameter:
    status 200, [Content-Length] ["0"], no [Content-Range], no chunk. *)
Theorem view_file_empty_file_any_range (env : Env) (path : string)
    (range : option string) :
  files env !! resolve env path = Some (File []) ->
  exists resp,
    view_file env path range = Ok resp
    /\ status_code resp = 200
    /\ headers resp !! "Content-Length" = Some "0"
    /\ headers resp !! "Content-Range" = None
    /\ iterate env (body_iterator resp) = Ok [].
Proof.
  intros Hfile.
  destruct (resolved_range_result env range (Z.of_nat (length (@nil Byte.byte))))
    as (s & e & p & Hr & Hcases).
  destruct Hcases as [(-> & -> & ->) | (_ & H0 & Hse & Hef)];
    [| cbn [length] in Hef; lia].
  destruct (view_file_found env path range [] _ _ _ Hfile Hr)
    as (resp & Hview & Hbody & Hst & _ & _ & Hcl & Hcr).
  exists resp. split; [exact Hview |]. split; [exact Hst |].
  split; [exact Hcl |]. split; [exact Hcr |].
  unfold iterate, async_iterate_file_chunks. rewrite Hbody.
  cbn [gen_path gen_start gen_chunk_size]. rewrite Hfile.
  cbn [length Z.of_nat Z.ltb Z.compare]. by rewrite read_loop_eq, read_at_nil.
Qed.

Lemma view_file_empty_file_any_range_witness :
  exists resp,
    view_file (sample_env "empty" []) "empty" (Some "bytes=0-0") = Ok resp
    /\ status_code resp = 200
    /\ headers resp !! "Content-Length" = Some "0"
    /\ headers resp !! "Content-Range" = None
    /\ iterate (sample_env "empty" []) (body_iterator resp) = Ok [].
Proof.
  apply (view_file_empty_file_any_range (sample_env "empty" []) "empty"
           (Some "bytes=0-0")).
  vm_compute; reflexivity.
Defined.



(** ** The chunks of a stream *)





(** X6. Without a range (no parameter, or an empty one) a regular file
    comes back whole: status 200, [Content-Length] the file size, no
    [Content-Range], and the streamed body is the content of the file. *)
Theorem view_file_whole_file (env : Env) (path : string) (range : option string)
    (data : bytes) :
  files env !! resolve env path = Some (File data) ->
  truthy_opt range = false ->
  exists resp,
    view_file env path range = Ok resp
    /\ status_code resp = 200
    /\ headers resp !! "Content-Length" = Some (py_str (Z.of_nat (length data)))
    /\ headers resp !! "Content-Range" = None
    /\ streamed_body env resp = Ok data.
Proof.
  intros Hfile Hrange.
  assert (Hr : resolved_range env range (Z.of_nat (length data))
               = Ok (0, Z.of_nat (length data) - 1, false)).
  { unfold resolved_range. destruct range as [r|]; [| done].
    cbn [truthy_opt] in Hrange. by rewrite Hrange. }
  destruct (view_file_found env path range data _ _ _ Hfile Hr)
    as (resp & Hview & _ & Hst & _ & _ & Hcl & Hcr).
  exists resp. split; [exact Hview |]. split; [exact Hst |].
  split; [rewrite Hcl; do 2 f_equal; lia |]. split; [exact Hcr |].
  rewrite (view_file_streams_to_eof env path range data _ _ _ resp Hfile Hr Hview).
  done.
Qed.

Lemma view_file_whole_file_witness :
  exists resp,
    view_file (sample_env "f.bin" (sample_bytes 10)) "f.bin" None = Ok resp
    /\ status_code resp = 200
    /\ headers resp !! "Content-Length" = Some "10"
    /\ headers resp !! "Content-Range" = None
    /\ streamed_body (sample_env "f.bin" (sample_bytes 10)) resp
       = Ok (sample_bytes 10).
Proof.
  destruct (view_file_whole_file (sample_env "f.bin" (sample_bytes 10)) "f.bin" None
              (sample_bytes 10))
    as (resp & Hview & Hst & Hcl & Hcr & Hbody);
    [vm_compute; reflexivity | reflexivity |].
  exists resp. split; [exact Hview |]. split; [exact Hst |].
  split; [rewrite Hcl; vm_compute; reflexivity |]. done.
Defined.

(** X7. The body of every view response is the file from [start] on:
    it has [file_size - start] bytes, never fewer than [Content-Length],
    and exactly [Content-Length] bytes when, and only when, the resolved
    range ends at the last byte of the file. *)
Theorem view_file_body_length (env : Env) (path : string) (range : option string)
    (resp : StreamingResponse) :
  view_file env path range = Ok resp ->
  exists data s e p body,
    files env !! resolve env path = Some (File data)
    /\ resolved_range env range (Z.of_nat (length data)) = Ok (s, e, p)
    /\ headers resp !! "Content-Length" = Some (py_str (e - s + 1))
    /\ streamed_body env resp = Ok body
    /\ Z.of_nat (length body) = Z.of_nat (length data) - s
    /\ body = drop (Z.to_nat s) data
    /\ e - s + 1 <= Z.of_nat (length body)
    /\ (Z.of_nat (length body) = e - s + 1 <-> e = Z.of_nat (length data) - 1).
Proof.
  intros Hview.
  destruct (view_file_ok_file env path range resp Hview) as [data Hfile].
  destruct (resolved_range_result env range (Z.of_nat (length data)))
    as (s & e & p & Hr & Hcases).
  destruct (view_file_found env path range data s e p Hfile Hr)
    as (resp' & Hview' & _ & _ & _ & _ & Hcl & _).
  rewrite Hview in Hview'. injection Hview' as <-.
  pose proof (view_file_streams_to_eof env path range data s e p resp Hfile Hr Hview)
    as Hbody.
  exists data, s, e, p, (drop (Z.to_nat s) data).
  rewrite length_drop.
  repeat split; try done; destruct Hcases as [(_ & -> & ->)|(_ & H0 & Hse & Hef)]; lia.
Qed.

Lemma view_file_body_length_witness :
  exists resp body,
    view_file (sample_env "f.bin" (sample_bytes 10)) "f.bin" (Some "bytes=2-4") = Ok resp
    /\ headers resp !! "Content-Length" = Some "3"
    /\ streamed_body (sample_env "f.bin" (sample_bytes 10)) resp = Ok body
    /\ body = [x02; x03; x04; x05; x06; x07; x08; x09].
Proof.
  destruct (view_file_found (sample_env "f.bin" (sample_bytes 10)) "f.bin"
              (Some "bytes=2-4") (sample_bytes 10) 2 4 true)
    as (resp & Hview & _); [vm_compute; reflexivity | vm_compute; reflexivity |].
  destruct (view_file_body_length _ _ _ _ Hview)
    as (data & s & e & p & body & Hfile & Hr & Hcl & Hbody & _).
  exists resp, body. split; [exact Hview |].
  injection Hview as <-. split; [vm_compute; reflexivity |].
  split; [exact Hbody |].
  vm_compute in Hbody. by injection Hbody as <-.
Defined.

(** ** [get_file_info] *)

Lemma mime_map_truthy (k v : string) : mime_map !! k = Some v -> truthy v = true.
Proof.
  unfold mime_map. intros H. apply elem_of_list_to_map_2 in H.
  repeat (apply elem_of_cons in H as [[= -> ->]|H]; [done |]).
  by apply elem_of_nil in H.
Qed.

Lemma mime_map_not_default (k : string) :
  mime_map !! k <> Some "application/octet-stream".
Proof.
  unfold mime_map. intros H. apply elem_of_list_to_map_2 in H.
  repeat (apply elem_of_cons in H as [Heq|H]; [discriminate Heq |]).
  by apply elem_of_nil in H.
Qed.

(** [get_file_info] on a regular file, written out. *)
Lemma get_file_info_regular (env : Env) (file_path : string) (data : bytes) :
  files env !! file_path = Some (File data) ->
  get_file_info env file_path
  = Ok {| name := path_name file_path;
          path := file_path;
          is_dir := false;
          size := naturalsize env (Z.of_nat (length data));
          size_bytes := Z.of_nat (length data);
          mime_type :=
            if truthy_opt (guess_type env file_path) then guess_type env file_path
            else Some (default "application/octet-stream"
                         (mime_map !! lower (path_suffix file_path))) |}.
Proof.
  intros Hfile. unfold get_file_info, path_is_dir, stat_st_size.
  rewrite Hfile. cbn [negb mbind result_bind andb].
  by destruct (truthy_opt (guess_type env file_path)).
Qed.

(** X8. For a regular file [get_file_info] gives the size of the
    content and a mime type that is never missing or empty: the type of
    the system database when it has one, else the entry of the fallback
    table for the lower-cased suffix, else [application/octet-stream]. *)
Theorem get_file_info_file (env : Env) (file_path : string) (data : bytes) :
  files env !! file_path = Some (File data) ->
  exists info m,
    get_file_info env file_path = Ok info
    /\ name info = path_name file_path
    /\ path info = file_path
    /\ is_dir info = false
    /\ size_bytes info = Z.of_nat (length data)
    /\ size info = naturalsize env (Z.of_nat (length data))
    /\ mime_type info = Some m
    /\ truthy m = true
    /\ (truthy_opt (guess_type env file_path) = true ->
        guess_type env file_path = Some m)
    /\ (truthy_opt (guess_type env file_path) = false ->
        m = default "application/octet-stream"
              (mime_map !! lower (path_suffix file_path))).
Proof.
  intros Hfile. rewrite (get_file_info_regular env file_path data Hfile).
  destruct (guess_type env file_path) as [g|] eqn:Hg; cbn [truthy_opt].
  - destruct (truthy g) eqn:Hgt.
    + eexists _, g. by repeat split.
    + eexists _, _. repeat split; try done. cbn [mime_type].
      destruct (mime_map !! lower (path_suffix file_path)) as [v|] eqn:Hv; [| done].
      by apply mime_map_truthy in Hv.
  - eexists _, _. repeat split; try done. cbn [mime_type].
    destruct (mime_map !! lower (path_suffix file_path)) as [v|] eqn:Hv; [| done].
    by apply mime_map_truthy in Hv.
Qed.

Lemma get_file_info_file_witness :
  exists info,
    get_file_info (sample_env "Movie.MKV" (sample_bytes 10)) "/Movie.MKV" = Ok info
    /\ size_bytes info = 10
    /\ mime_type info = Some "video/x-matroska".
Proof.
  destruct (get_file_info_file (sample_env "Movie.MKV" (sample_bytes 10)) "/Movie.MKV"
              (sample_bytes 10))
    as (info & m & Hinfo & _ & _ & _ & Hsize & _ & Hm & _ & _ & Hfall);
    [vm_compute; reflexivity |].
  exists info. split; [exact Hinfo |]. split; [exact Hsize |].
  rewrite Hm, Hfall by reflexivity. vm_compute. reflexivity.
Defined.

(** X9. The type in the listing and the type on the stream of one
    regular file: they are the same whenever the system database knows
    the file; when it does not, the stream says
    [application/octet-stream] and the listing says what the fallback
    table has for the suffix, so they agree exactly when the table has
    no entry for it. *)
Theorem view_file_get_file_info_types (env : Env) (path : string)
    (range : option string) (data : bytes) :
  files env !! resolve env path = Some (File data) ->
  exists resp info,
    view_file env path range = Ok resp
    /\ get_file_info env (resolve env path) = Ok info
    /\ (truthy_opt (guess_type env (resolve env path)) = true ->
        headers resp !! "Content-Type" = mime_type info)
    /\ (truthy_opt (guess_type env (resolve env path)) = false ->
        headers resp !! "Content-Type" = Some "application/octet-stream"
        /\ (headers resp !! "Content-Type" = mime_type info
            <-> mime_map !! lower (path_suffix (resolve env path)) = None)).
Proof.
  intros Hfile.
  destruct (resolved_range_result env range (Z.of_nat (length data)))
    as (s & e & p & Hr & _).
  destruct (view_file_found env path range data s e p Hfile Hr)
    as (resp & Hview & _ & _ & Hct & _).
  eexists resp, _. split; [exact Hview |].
  split; [exact (get_file_info_regular env (resolve env path) data Hfile) |].
  rewrite Hct. cbn [mime_type]. unfold py_or. split.
  - intros Hk. rewrite Hk.
    destruct (guess_type env (resolve env path)) as [g|]; [done | discriminate Hk].
  - intros Hk. rewrite Hk. split; [done |].
    destruct (mime_map !! lower (path_suffix (resolve env path))) as [v|] eqn:Hv;
      cbn [default]; [| done].
    split; [| done]. intros [= <-]. by apply mime_map_not_default in Hv.
Qed.

Lemma view_file_get_file_info_types_witness :
  exists resp info,
    view_file (sample_env "notes.txt" (sample_bytes 10)) "notes.txt" None = Ok resp
    /\ get_file_info (sample_env "notes.txt" (sample_bytes 10)) "/notes.txt" = Ok info
    /\ headers resp !! "Content-Type" = Some "application/octet-stream"
    /\ mime_type info = Some "text/plain".
Proof.
  destruct (view_file_get_file_info_types (sample_env "notes.txt" (sample_bytes 10))
              "notes.txt" None (sample_bytes 10))
    as (resp & info & Hview & Hinfo & _ & Hunk); [vm_compute; reflexivity |].
  exists resp, info. split; [exact Hview |]. split; [exact Hinfo |].
  split; [by apply Hunk |].
  vm_compute in Hinfo. by injection Hinfo as <-.
Defined.

Lemma path_name_append (dir n : string) :
  has_char "/" n = false -> path_name (dir +:+ String "/" n) = n.
Proof.
  intros Hn. induction dir as [|c dir IH].
  - rewrite append_nil. cbn [path_name]. by rewrite Hn, Ascii.eqb_refl.
  - rewrite append_cons. cbn [path_name].
    rewrite has_char_append. cbn [has_char]. rewrite Ascii.eqb_refl.
    by rewrite orb_true_r.
Qed.

Lemma rfind_dot_none (s : string) : has_char "." s = false -> rfind_dot s = None.
Proof.
  induction s as [|c s IH]; [done |].
  intros [Hc Hs]%has_char_cons_false. cbn [rfind_dot]. rewrite IH by done.
  by rewrite Ascii.eqb_sym, Hc.
Qed.

(** X10. A file whose name has no dot, or no dot but the first
    character (a dot file such as [.bashrc]), has an empty suffix: when
    the system database does not know it, its type is
    [application/octet-stream], whatever the fallback table lists. *)
Theorem get_file_info_dot_file (env : Env) (dir n : string) (data : bytes) :
  has_char "/" n = false ->
  has_char "." n = false \/ (exists r, n = String "." r /\ has_char "." r = false) ->
  files env !! (dir +:+ String "/" n) = Some (File data) ->
  truthy_opt (guess_type env (dir +:+ String "/" n)) = false ->
  path_suffix (dir +:+ String "/" n) = EmptyString
  /\ exists info,
       get_file_info env (dir +:+ String "/" n) = Ok info
       /\ name info = n
       /\ mime_type info = Some "application/octet-stream".
Proof.
  intros Hslash Hdot Hfile Hdb.
  assert (Hsuf : path_suffix (dir +:+ String "/" n) = EmptyString).
  { unfold path_suffix. rewrite path_name_append by done.
    destruct Hdot as [Hnone | (r & -> & Hr)].
    - by rewrite rfind_dot_none.
    - cbn [rfind_dot]. rewrite rfind_dot_none by done. done. }
  split; [exact Hsuf |].
  eexists. split; [exact (get_file_info_regular env _ data Hfile) |].
  cbn [name mime_type]. split; [by apply path_name_append |].
  rewrite Hdb, Hsuf. reflexivity.
Qed.

Lemma get_file_info_dot_file_witness :
  path_suffix "/home/.bashrc" = EmptyString
  /\ exists info,
       get_file_info (sample_env "home/.bashrc" (sample_bytes 10)) "/home/.bashrc"
       = Ok info
       /\ name info = ".bashrc"
       /\ mime_type info = Some "application/octet-stream".
Proof.
  apply (get_file_info_dot_file (sample_env "home/.bashrc" (sample_bytes 10))
           "/home" ".bashrc" (sample_bytes 10)).
  - reflexivity.
  - right. exists "bashrc". split; reflexivity.
  - vm_compute; reflexivity.
  - reflexivity.
Defined.

(** ** Paths and breadcrumbs *)

Lemma string_app_assoc (a b c : string) : a +:+ b +:+ c = (a +:+ b) +:+ c.
Proof.
  induction a as [|d a IH]; [done |]. rewrite !append_cons. by rewrite IH.
Qed.

Lemma split_char_cons (c d : ascii) (s : string) :
  split_go (String c "") 0 (String d s) =
  if Ascii.eqb d c then EmptyString :: split_go (String c "") 0 s
  else match split_go (String c "") 0 s with
       | f :: fs => String d f :: fs
       | [] => [String d EmptyString]
       end.
Proof.
  cbn [split_go String.prefix String.length Nat.pred].
  destruct (ascii_dec c d) as [<-|Hne].
  - by rewrite string_prefix_nil, Ascii.eqb_refl.
  - destruct (Ascii.eqb_spec d c); [by subst | done].
Qed.

Lemma split_char_free (c : ascii) (a : string) :
  has_char c a = false -> split_go (String c "") 0 a = [a].
Proof.
  induction a as [|d a IH]; [done |].
  rewrite split_char_cons. intros [Hc Ha]%has_char_cons_false.
  rewrite Ascii.eqb_sym, Hc. by rewrite IH.
Qed.

Lemma split_char_app (c : ascii) (a r : string) :
  has_char c a = false ->
  split_go (String c "") 0 (a +:+ String c r) = a :: split_go (String c "") 0 r.
Proof.
  induction a as [|d a IH].
  - intros _. rewrite append_nil, split_char_cons. by rewrite Ascii.eqb_refl.
  - intros [Hc Ha]%has_char_cons_false.
    rewrite append_cons, split_char_cons, Ascii.eqb_sym, Hc. by rewrite IH.
Qed.

(** Splitting undoes joining, for fields without the separator. *)
Lemma split_concat (c : ascii) (parts : list string) :
  parts <> [] -> Forall (fun x => has_char c x = false) parts ->
  split_go (String c "") 0 (String.concat (String c "") parts) = parts.
Proof.
  induction parts as [|x [|y r] IH]; [done | |]; intros _ Hall.
  - cbn [String.concat]. apply split_char_free. by inversion Hall.
  - change (String.concat (String c "") (x :: y :: r))
      with (x +:+ String c (String.concat (String c "") (y :: r))).
    inversion Hall; subst. rewrite split_char_app by done.
    by rewrite IH.
Qed.

Lemma plain_name_spec (x : string) :
  plain_name x = true ->
  is_component x = true /\ has_char "/" x = false /\ x <> EmptyString.
Proof.
  unfold plain_name, is_component. intros H.
  apply andb_true_iff in H as [H1 H2]. apply negb_true_iff in H2.
  pose proof H1 as H1'. apply andb_true_iff in H1' as [Ht _].
  repeat split; try done. by intros ->.
Qed.

Lemma filter_components (parts : list string) :
  Forall (fun x => plain_name x = true) parts ->
  filter (fun x => is_component x = true) parts = parts.
Proof.
  induction 1 as [|x l Hx _ IH]; [done |].
  rewrite filter_cons_True by (by apply plain_name_spec). by rewrite IH.
Qed.

(** The components of the path written from a list of names are those
    names. *)
Lemma path_parts_text (parts : list string) :
  Forall (fun x => plain_name x = true) parts ->
  path_parts (path_text parts) = parts.
Proof.
  intros Hall. unfold path_parts, path_text.
  change ("/" +:+ ?s) with (EmptyString +:+ String "/" s).
  rewrite (split_char_app "/" EmptyString) by done.
  rewrite filter_cons_False by done.
  destruct parts as [|x l]; [done |].
  rewrite split_concat; [by apply filter_components | done |].
  eapply Forall_impl; [exact Hall |]. intros y Hy.
  by apply plain_name_spec in Hy as (_ & Hs & _).
Qed.

Lemma path_root_text (parts : list string) :
  Forall (fun x => plain_name x = true) parts ->
  path_root (path_text parts) = "/".
Proof.
  intros Hall. unfold path_text. destruct parts as [|x l]; [done |].
  inversion Hall as [|? ? Hx _]; subst.
  apply plain_name_spec in Hx as (_ & Hslash & Hne).
  destruct x as [|c x]; [done |].
  apply has_char_cons_false in Hslash as [Hc _].
  assert (Hs : exists t, String.concat "/" (String c x :: l) = String c t).
  { destruct l; eexists; reflexivity. }
  destruct Hs as [t ->]. unfold path_root.
  change ("/" +:+ String c ?s) with (String "/" (String c s)).
  cbn [starts_with string_tail negb]. rewrite Ascii.eqb_refl. cbn [negb].
  rewrite Ascii.eqb_sym, Hc. done.
Qed.

Lemma ends_with_has_char (c : ascii) (s : string) :
  ends_with c s = true -> has_char c s = true.
Proof.
  induction s as [|d s IH]; [done |]. cbn [ends_with has_char].
  destruct s as [|e s].
  - intros H. by rewrite Ascii.eqb_sym, H.
  - intros H. rewrite IH by done. apply orb_true_r.
Qed.

Lemma ends_with_append (c : ascii) (a b : string) :
  b <> EmptyString -> ends_with c (a +:+ b) = ends_with c b.
Proof.
  intros Hb. induction a as [|d a IH]; [done |].
  rewrite append_cons. cbn [ends_with].
  destruct (a +:+ b) as [|e r] eqn:Hab; [| done].
  destruct a; [by rewrite append_nil in Hab | by rewrite append_cons in Hab].
Qed.

Lemma concat_snoc (l : list string) (x : string) :
  l <> [] ->
  String.concat "/" (l ++ [x]) = String.concat "/" l +:+ "/" +:+ x.
Proof.
  induction l as [|y [|z r] IH]; [done | done |]. intros _.
  change (String.concat "/" ((y :: z :: r) ++ [x]))
    with (y +:+ "/" +:+ String.concat "/" ((z :: r) ++ [x])).
  rewrite IH by done.
  change (String.concat "/" (y :: z :: r))
    with (y +:+ "/" +:+ String.concat "/" (z :: r)).
  by rewrite <- !string_app_assoc.
Qed.

(** One step down from the path of some names to the next name. *)
Lemma posix_join_text (done_ : list string) (part : string) :
  Forall (fun x => plain_name x = true) done_ -> plain_name part = true ->
  posix_join (path_text done_) part = path_text (done_ ++ [part]).
Proof.
  intros Hdone Hpart. apply plain_name_spec in Hpart as (_ & Hslash & Hne).
  unfold posix_join.
  assert (Hstart : starts_with "/" part = false).
  { destruct part as [|c part]; [done |].
    apply has_char_cons_false in Hslash as [Hc _]. cbn [starts_with].
    by rewrite Ascii.eqb_sym. }
  rewrite Hstart. unfold path_text.
  destruct (decide (done_ = [])) as [->|Hnil]; [done |].
  assert (Hlast : ends_with "/" ("/" +:+ String.concat "/" done_) = false).
  { destruct (exists_last Hnil) as (l & x & ->).
    apply Forall_app in Hdone as [_ Hx]. inversion Hx as [|? ? Hx' _]; subst.
    apply plain_name_spec in Hx' as (_ & Hxs & Hxne).
    assert (Hend : String.concat "/" (l ++ [x]) = (String.concat "/" (l ++ [x])) /\
                   exists pre, String.concat "/" (l ++ [x]) = pre +:+ x).
    { split; [done |]. destruct (decide (l = [])) as [->|Hl].
      - by exists EmptyString.
      - exists (String.concat "/" l +:+ "/"). rewrite concat_snoc by done.
        by rewrite <- string_app_assoc. }
    destruct Hend as [_ [pre ->]].
    change ("/" +:+ pre +:+ x) with ("/" +:+ (pre +:+ x)).
    rewrite string_app_assoc, ends_with_append by done.
    destruct (ends_with "/" x) eqn:He; [| done].
    apply ends_with_has_char in He. congruence. }
  rewrite Hlast.
  assert (Ht : truthy ("/" +:+ String.concat "/" done_) = true) by done.
  rewrite Ht. cbn [negb orb]. rewrite concat_snoc by done.
  by rewrite <- !string_app_assoc.
Qed.

Lemma breadcrumbs_loop_text (done_ parts : list string) :
  Forall (fun x => plain_name x = true) done_ ->
  Forall (fun x => plain_name x = true) parts ->
  breadcrumbs_loop parts (path_text done_)
  = imap (fun i part => crumb part (path_text (done_ ++ take (S i) parts))) parts.
Proof.
  revert done_. induction parts as [|part rest IH]; intros done_ Hdone Hparts;
    [done |].
  inversion Hparts as [|? ? Hpart Hrest]; subst.
  cbn [breadcrumbs_loop imap]. rewrite posix_join_text by done.
  change (take 1 (part :: rest)) with [part]. f_equal.
  rewrite IH; [| apply Forall_app; split; [done | by constructor] | done].
  apply imap_ext. intros i x _. unfold compose.
  change (take (S (S i)) (part :: rest)) with (part :: take (S i) rest).
  by rewrite <- app_assoc.
Qed.

(** X11. The breadcrumbs of an absolute path [/n1/.../nk]: the root
    crumb, then one crumb per name, in order, crumb [i] carrying the name
    [ni] and the path [/n1/.../ni]; the last crumb is the path itself. *)
Theorem get_breadcrumbs_trail (parts : list string) :
  Forall (fun x => plain_name x = true) parts ->
  get_breadcrumbs (path_text parts)
  = Ok (crumb "Root" "/"
        :: imap (fun i part => crumb part (path_text (take (S i) parts))) parts).
Proof.
  intros Hall. unfold get_breadcrumbs.
  assert (Hrel : relative_to_root (path_text parts) = Ok parts).
  { unfold relative_to_root. by rewrite path_root_text, path_parts_text. }
  assert (Hloop : breadcrumbs_loop parts "/"
                  = imap (fun i part => crumb part (path_text (take (S i) parts))) parts).
  { change "/" with (path_text []). by rewrite breadcrumbs_loop_text. }
  destruct (negb (path_text parts =? "/")%string) eqn:Hroot.
  - rewrite Hrel. cbn [mbind result_bind]. by rewrite Hloop.
  - apply negb_false_iff, String.eqb_eq in Hroot.
    destruct parts as [|x l]; [done |].
    exfalso. inversion Hall as [|? ? Hx _]; subst.
    apply plain_name_spec in Hx as (_ & _ & Hne).
    unfold path_text in Hroot. destruct x; [done |].
    destruct l; discriminate Hroot.
Qed.

Lemma get_breadcrumbs_trail_witness :
  Forall (fun x => plain_name x = true) ["srv"; "media"]
  /\ get_breadcrumbs "/srv/media"
     = Ok [crumb "Root" "/"; crumb "srv" "/srv"; crumb "media" "/srv/media"].
Proof.
  assert (H : Forall (fun x => plain_name x = true) ["srv"; "media"])
    by (repeat constructor).
  split; [exact H |]. exact (get_breadcrumbs_trail ["srv"; "media"] H).
Defined.

(** ** [sorted] *)

Lemma insert_by_perm {A K : Type} (lt : K -> K -> bool) (f : A -> K)
    (x : A) (l : list A) :
  insert_by lt f x l ≡ₚ x :: l.
Proof.
  induction l as [|y r IH]; [done |]. cbn [insert_by].
  destruct (lt (f y) (f x)); [| done].
  rewrite IH. apply Permutation_swap.
Qed.


Lemma insert_by_sorted {A K : Type} (lt : K -> K -> bool) (f : A -> K)
    (x : A) (l : list A) :
  (forall a b c, lt b a = false -> lt c b = false -> lt c a = false) ->
  (forall a b, lt a b = true -> lt b a = false) ->
  StronglySorted (fun a b => lt (f b) (f a) = false) l ->
  StronglySorted (fun a b => lt (f b) (f a) = false) (insert_by lt f x l).
Proof.
  intros Htrans Hasym. induction l as [|y r IH]; intros Hs.
  - repeat constructor.
  - cbn [insert_by]. inversion Hs as [|? ? Hr Hy]; subst.
    destruct (lt (f y) (f x)) eqn:Hyx.
    + constructor; [by apply IH |].
      rewrite insert_by_perm. constructor; [by apply Hasym | done].
    + constructor; [done |]. constructor; [done |].
      eapply Forall_impl; [exact Hy |]. intros z Hz. cbn in Hz.
      by apply (Htrans (f x) (f y) (f z)).
Qed.

Lemma sorted_sorted {A K : Type} (lt : K -> K -> bool) (f : A -> K) (l : list A) :
  (forall a b c, lt b a = false -> lt c b = false -> lt c a = false) ->
  (forall a b, lt a b = true -> lt b a = false) ->
  StronglySorted (fun a b => lt (f b) (f a) = false) (sorted lt f l).
Proof.
  intros Htrans Hasym. unfold sorted. induction l as [|x l IH]; [constructor |].
  cbn [foldr]. by apply insert_by_sorted.
Qed.

Lemma StronglySorted_lookup {A : Type} (R : A -> A -> Prop) (l : list A)
    (i j : nat) (x y : A) :
  StronglySorted R l -> (i < j)%nat -> l !! i = Some x -> l !! j = Some y -> R x y.
Proof.
  intros Hs. revert i j. induction Hs as [|a l Hl IH Ha]; intros i j Hij Hi Hj;
    [done |].
  destruct j as [|j]; [lia |]. cbn in Hj.
  destruct i as [|i].
  - cbn in Hi. injection Hi as <-.
    eapply Forall_forall in Ha; [exact Ha |]. by eapply list_elem_of_lookup_2.
  - cbn in Hi. apply (IH i j); [lia | done | done].
Qed.

Lemma ltb_false_leb (a b : string) : String.ltb b a = false <-> String.le a b.
Proof.
  unfold String.le, String.leb, String.ltb.
  rewrite (String.compare_antisym a b).
  destruct (String.compare b a); cbn; split; done.
Qed.

Lemma key_lt_trans (a b c : bool * string) :
  key_lt b a = false -> key_lt c b = false -> key_lt c a = false.
Proof.
  destruct a as [a1 a2], b as [b1 b2], c as [c1 c2]. unfold key_lt. cbn [fst snd].
  destruct a1, b1, c1; cbn [Bool.eqb negb andb]; try done;
    rewrite !ltb_false_leb; intros H1 H2; by etrans.
Qed.

Lemma key_lt_asym (a b : bool * string) : key_lt a b = true -> key_lt b a = false.
Proof.
  destruct a as [a1 a2], b as [b1 b2]. unfold key_lt. cbn [fst snd].
  destruct a1, b1; cbn [Bool.eqb negb andb]; try done;
    unfold String.ltb; rewrite (String.compare_antisym a2 b2);
    by destruct (String.compare b2 a2).
Qed.

(** ** [list_directory] *)







Lemma list_directory_inv (host : Host) (env : Env) (p : string)
    (resp : DirectoryResponse.t) :
  list_directory host env p = Ok resp ->
  exists n infos,
    files env !! resolve env p = Some (Dir n)
    /\ map_result (get_file_info env) (iterdir host env (resolve env p)) = Ok infos
    /\ DirectoryResponse.files resp = sorted key_lt listing_key infos
    /\ DirectoryResponse.current_path resp = resolve env p.
Proof.
  unfold list_directory, list_directory_try, path_exists, path_is_dir.
  destruct (files env !! resolve env p) as [[n|data]|]; cbn [negb]; try done.
  destruct (map_result _ _) as [infos|]; cbn [mbind result_bind]; [| done].
  destruct (get_breadcrumbs _) as [crumbs|]; cbn [mbind result_bind]; [| done].
  intros [= <-]. by exists n, infos.
Qed.

(** X13. In every listing the directories come before the files, and
    within the directories and within the files the names are in
    ascending order when written in lower case. *)
Theorem list_directory_order (host : Host) (env : Env) (p : string)
    (resp : DirectoryResponse.t) (i j : nat) (x y : FileInfo) :
  list_directory host env p = Ok resp ->
  (i < j)%nat ->
  DirectoryResponse.files resp !! i = Some x ->
  DirectoryResponse.files resp !! j = Some y ->
  (is_dir y = true -> is_dir x = true)
  /\ (is_dir x = is_dir y -> String.leb (lower (name x)) (lower (name y)) = true).
Proof.
  intros Hl Hij Hi Hj.
  destruct (list_directory_inv host env p resp Hl) as (n & infos & _ & _ & Hf & _).
  rewrite Hf in Hi, Hj.
  pose proof (sorted_sorted key_lt listing_key infos key_lt_trans key_lt_asym) as Hs.
  pose proof (StronglySorted_lookup _ _ i j x y Hs Hij Hi Hj) as Hxy.
  cbn beta in Hxy. unfold key_lt, listing_key in Hxy. cbn [fst snd] in Hxy.
  destruct (is_dir x), (is_dir y); cbn [negb Bool.eqb andb] in Hxy; try done;
    (split; [done |]); intros _; apply ltb_false_leb in Hxy;
    by apply Is_true_true.
Qed.

Lemma list_directory_order_witness :
  exists resp x y,
    list_directory sample_host sample_tree "srv" = Ok resp
    /\ DirectoryResponse.files resp !! 1%nat = Some x
    /\ DirectoryResponse.files resp !! 2%nat = Some y
    /\ name x = "zdir" /\ name y = "A.txt"
    /\ (is_dir y = true -> is_dir x = true)
    /\ (is_dir x = is_dir y -> String.leb (lower (name x)) (lower (name y)) = true).
Proof.
  destruct (list_directory sample_host sample_tree "srv") as [resp|] eqn:Hl;
    [| vm_compute in Hl; discriminate Hl].
  destruct (DirectoryResponse.files resp !! 1%nat) as [x|] eqn:Hx;
    [| vm_compute in Hl; injection Hl as <-; discriminate Hx].
  destruct (DirectoryResponse.files resp !! 2%nat) as [y|] eqn:Hy;
    [| vm_compute in Hl; injection Hl as <-; discriminate Hy].
  exists resp, x, y. split; [reflexivity |]. split; [exact Hx |].
  split; [exact Hy |].
  pose proof (list_directory_order sample_host sample_tree "srv" resp 1 2 x y Hl
                ltac:(lia) Hx Hy) as Hord.
  vm_compute in Hl. injection Hl as <-.
  cbn in Hx, Hy. injection Hx as <-. injection Hy as <-.
  split; [reflexivity |]. split; [reflexivity | exact Hord].
Defined.

(** X14. [list_directory] answers for directories only, and every
    failure leaves it as a 500: the 404 of a missing path and the 400 of
    a path that is not a directory are raised inside the [try] and
    caught by its [except Exception], so the caller sees status 500 with
    their text as detail. *)
Theorem list_directory_errors (host : Host) (env : Env) (p : string) :
  (files env !! resolve env p = None ->
   list_directory host env p
   = Raise (HTTPException 500 (http_exception_str host 404 "Path not found")))
  /\ (forall data, files env !! resolve env p = Some (File data) ->
        list_directory host env p
        = Raise (HTTPException 500 (http_exception_str host 400 "Not a directory")))
  /\ (forall e, list_directory host env p = Raise e ->
                exists detail, e = HTTPException 500 detail)
  /\ (forall resp, list_directory host env p = Ok resp ->
                   exists n, files env !! resolve env p = Some (Dir n)).
Proof.
  split; [| split; [| split]].
  - intros Hf. unfold list_directory, list_directory_try, path_exists.
    by rewrite Hf.
  - intros data Hf. unfold list_directory, list_directory_try, path_exists, path_is_dir.
    by rewrite Hf.
  - intros e. unfold list_directory.
    destruct (list_directory_try host env p); [done |].
    intros [= <-]. by eexists.
  - intros resp Hl.
    destruct (list_directory_inv host env p resp Hl) as (n & _ & Hd & _).
    by exists n.
Qed.

Lemma list_directory_errors_witness :
  files sample_tree !! resolve sample_tree "nope" = None
  /\ list_directory sample_host sample_tree "nope"
     = Raise (HTTPException 500 "404: Path not found")
  /\ list_directory sample_host sample_tree "other"
     = Raise (HTTPException 500 "400: Not a directory").
Proof.
  destruct (list_directory_errors sample_host sample_tree "nope") as (Hnone & _).
  destruct (list_directory_errors sample_host sample_tree "other") as (_ & Hfile & _).
  split; [vm_compute; reflexivity |]. split.
  - rewrite Hnone by (vm_compute; reflexivity). vm_compute. reflexivity.
  - rewrite (Hfile []) by (vm_compute; reflexivity). vm_compute. reflexivity.
Defined.

(** ** [download_file] *)



(** ** [upload_file] *)

Lemma with_file_twice (env : Env) (k : string) (a b : bytes) :
  with_file (with_file env k a) k b = with_file env k b.
Proof. unfold with_file. cbn. by rewrite insert_insert_eq. Qed.

Lemma write_end_with_file (env : Env) (k : string) (a c : bytes) :
  write_end (with_file env k a) k c = with_file env k (a ++ c)%list.
Proof.
  unfold write_end. cbn [files with_file]. rewrite lookup_insert_eq.
  apply with_file_twice.
Qed.

(** The writes of the loop leave the chunks, joined, in the file. *)
Lemma write_loop (env : Env) (k : string) (a : bytes) (chunks : list bytes) :
  foldl (fun env content => write_end env k content) (with_file env k a) chunks
  = with_file env k (a ++ concat chunks)%list.
Proof.
  revert a. induction chunks as [|c chunks IH]; intros a.
  - cbn. by rewrite app_nil_r.
  - cbn [foldl concat]. rewrite write_end_with_file, IH. by rewrite <- app_assoc.
Qed.

Lemma upload_file_ok (host : Host) (env : Env) (dir : string) (file : UploadFile)
    (n : Z) :
  files env !! resolve env dir = Some (Dir n) ->
  Forall (fun a => path_is_dir env (resolve env a) = true)
    (path_ancestors (path_div (resolve env dir) (filename file))) ->
  path_is_dir env (resolve env (path_div (resolve env dir) (filename file))) = false ->
  upload_file host env dir file
  = (Ok {[ "message" := "File " +:+ filename file +:+ " uploaded successfully" ]},
     with_file env (resolve env (path_div (resolve env dir) (filename file)))
       (upload_content file)).
Proof.
  intros Hdir Hanc Htarget.
  unfold upload_file, upload_file_try, path_exists. unfold path_is_dir at 1.
  rewrite Hdir. cbn [negb orb]. unfold open_wb.
  assert (Hfind : list_find (fun a => path_is_dir env (resolve env a) = false)
                    (path_ancestors (path_div (resolve env dir) (filename file)))
                  = None).
  { apply list_find_None. eapply Forall_impl; [exact Hanc |].
    intros a Ha. cbn. by rewrite Ha. }
  rewrite Hfind, Htarget. rewrite write_loop, concat_read_loop by done.
  by rewrite drop_0.
Qed.



(** X17. What was uploaded is what the stream gives back: after a
    successful upload, [view_file] on a path that resolves to the target
    answers 200 with the length of the upload as [Content-Length] and
    streams exactly the uploaded bytes. *)
Theorem upload_file_then_view_file (host : Host) (env : Env) (dir : string)
    (file : UploadFile) (n : Z) (p : string) :
  files env !! resolve env dir = Some (Dir n) ->
  Forall (fun a => path_is_dir env (resolve env a) = true)
    (path_ancestors (path_div (resolve env dir) (filename file))) ->
  path_is_dir env (resolve env (path_div (resolve env dir) (filename file))) = false ->
  resolve env p = resolve env (path_div (resolve env dir) (filename file)) ->
  exists r env' resp,
    upload_file host env dir file = (Ok r, env')
    /\ view_file env' p None = Ok resp
    /\ status_code resp = 200
    /\ headers resp !! "Content-Length"
       = Some (py_str (Z.of_nat (length (upload_content file))))
    /\ streamed_body env' resp = Ok (upload_content file).
Proof.
  intros Hdir Hanc Htarget Hp.
  set (k := resolve env (path_div (resolve env dir) (filename file))) in *.
  set (env' := with_file env k (upload_content file)).
  assert (Hfile : files env' !! resolve env' p = Some (File (upload_content file))).
  { cbn [env' files with_file resolve]. rewrite Hp. by rewrite lookup_insert_eq. }
  assert (Hr : resolved_range env' None (Z.of_nat (length (upload_content file)))
               = Ok (0, Z.of_nat (length (upload_content file)) - 1, false))
    by reflexivity.
  destruct (view_file_found env' p None _ _ _ _ Hfile Hr)
    as (resp & Hview & _ & Hst & _ & _ & Hcl & _).
  eexists _, env', resp. split; [by eapply upload_file_ok |].
  split; [exact Hview |]. split; [exact Hst |].
  split; [rewrite Hcl; do 2 f_equal; lia |].
  rewrite (view_file_streams_to_eof env' p None _ _ _ _ resp Hfile Hr Hview).
  done.
Qed.

Lemma upload_file_then_view_file_witness :
  exists r env' resp,
    upload_file sample_host sample_tree "srv"
      {| filename := "new.bin"; upload_content := [x01; x02; x03] |}
    = (Ok r, env')
    /\ view_file env' "srv/new.bin" None = Ok resp
    /\ status_code resp = 200
    /\ headers resp !! "Content-Length" = Some "3"
    /\ streamed_body env' resp = Ok [x01; x02; x03].
Proof.
  destruct (upload_file_then_view_file sample_host sample_tree "srv"
              {| filename := "new.bin"; upload_content := [x01; x02; x03] |}
              4096 "srv/new.bin")
    as (r & env' & resp & Hup & Hview & Hst & Hcl & Hbody);
    [ vm_compute; reflexivity | vm_compute; repeat constructor
    | vm_compute; reflexivity | vm_compute; reflexivity |].
  exists r, env', resp. split; [exact Hup |]. split; [exact Hview |].
  split; [exact Hst |]. split; [exact Hcl | exact Hbody].
Defined.



Lemma path_div_absolute (a b : string) :
  starts_with "/" b = true -> path_div a b = path_normal b.
Proof. intros Hb. unfold path_div, posix_join. by rewrite Hb. Qed.

(** X19. A file name that begins with a slash is taken as the whole
    path: the directory of the request plays no part in where the upload
    goes, so two uploads of such a file into any two existing
    directories do the same. *)
Theorem upload_file_absolute_name (host : Host) (env : Env) (dir1 dir2 : string)
    (file : UploadFile) (n1 n2 : Z) :
  files env !! resolve env dir1 = Some (Dir n1) ->
  files env !! resolve env dir2 = Some (Dir n2) ->
  starts_with "/" (filename file) = true ->
  upload_file host env dir1 file = upload_file host env dir2 file
  /\ path_div (resolve env dir1) (filename file) = path_normal (filename file).
Proof.
  intros H1 H2 Habs. split; [| by apply path_div_absolute].
  unfold upload_file, upload_file_try, path_exists, path_is_dir.
  rewrite H1, H2. cbn [negb orb]. by rewrite !path_div_absolute.
Qed.

Lemma upload_file_absolute_name_witness :
  upload_file sample_host sample_tree "srv"
    {| filename := "/top"; upload_content := [x01] |}
  = upload_file sample_host sample_tree "srv/zdir"
      {| filename := "/top"; upload_content := [x01] |}
  /\ path_div (resolve sample_tree "srv") "/top" = "/top"
  /\ files (upload_file sample_host sample_tree "srv"
              {| filename := "/top"; upload_content := [x01] |}).2 !! "/top"
     = Some (File [x01]).
Proof.
  destruct (upload_file_absolute_name sample_host sample_tree "srv" "srv/zdir"
              {| filename := "/top"; upload_content := [x01] |} 4096 4096)
    as [Heq Hdiv]; [vm_compute; reflexivity | vm_compute; reflexivity | reflexivity |].
  split; [exact Heq |]. split; [exact Hdiv |]. vm_compute. reflexivity.
Defined.
